(** * update_manifest.py: the manifest builder of the static site

    A shallow embedding of [src/update_manifest.py] and the proofs of the
    properties its specification states.

    Conventions of the model.
    - A Python [str] is a [string]: a sequence of code points below 256.
      On these code points the regular-expression class [\d] is exactly
      the ten characters [0] to [9], and strings compare as Python
      compares them, code point by code point.
    - Python exceptions are values of [result]; code that can raise lives
      in the [result] monad, code that also touches the file system or
      prints lives in [IO].
    - The file system is reduced to what [main] can observe: whether the
      directory [docs] exists and, when it does, its entries (name and
      content) in the order in which the operating system enumerates
      them.  Names are matched as on a POSIX system, case-sensitively.
      Reading and writing inside an existing directory succeed; writing
      a file leaves the other entries in their order. *)

From Stdlib Require Import List Bool Arith ZArith Lia Ascii String.
From Stdlib Require Import Sorting.Sorted Sorting.Permutation.
From Stdlib Require Import DecimalString.
Import ListNotations.

Open Scope string_scope.
Open Scope list_scope.
Open Scope Z_scope.

(** ** Exceptions *)

Inductive exn : Type :=
| ValueError
| OSError.

Inductive result (A : Type) : Type :=
| Return (a : A)
| Raise (e : exn).

Arguments Return {A} a.
Arguments Raise {A} e.

Definition rbind {A B : Type} (r : result A) (k : A -> result B) : result B :=
  match r with
  | Return a => k a
  | Raise e => Raise e
  end.

(** [try: body except ValueError: handler] *)
Definition try_except {A : Type} (body : result A) (handler : result A)
  : result A :=
  match body with
  | Return a => Return a
  | Raise ValueError => handler
  | Raise e => Raise e
  end.

Declare Scope result_scope.
Delimit Scope result_scope with result.
Notation "x <- r ;; k" := (rbind r (fun x => k))
  (at level 61, r at next level, right associativity) : result_scope.

(** ** Characters and strings *)

Definition newline : ascii := "010"%char.

Definition is_digit (c : ascii) : bool :=
  ((48 <=? N_of_ascii c) && (N_of_ascii c <=? 57))%N.

Fixpoint all_digits (s : string) : bool :=
  match s with
  | EmptyString => true
  | String c s' => is_digit c && all_digits s'
  end.

(** [s.endswith(suffix)] *)
Fixpoint endswith (s suffix : string) : bool :=
  if String.eqb s suffix then true
  else match s with
       | EmptyString => false
       | String _ s' => endswith s' suffix
       end.

(** Does the character [c] occur in [s]? *)
Fixpoint occurs (c : ascii) (s : string) : bool :=
  match s with
  | EmptyString => false
  | String c' s' => Ascii.eqb c c' || occurs c s'
  end.

(** ** The fragment of Python's [re] used by the program

    A pattern is a sequence of items; the three kinds below are the ones
    the program's pattern is made of.  Matching is the backtracking
    matching of [re]: a counted repetition is greedy, it tries the largest
    count first and gives characters back when the rest of the pattern
    fails. *)

Module Re.

Inductive item : Type :=
| Lit (c : ascii)          (* a literal character; [\.] is [Lit "."] *)
| Digits (lo hi : nat)     (* the capturing group [(\d{lo,hi})] *)
| Dollar.                  (* [$] *)

(** [$] without [re.MULTILINE]: the end of the string, or the position
    just before a newline that is the last character of the string. *)
Definition at_dollar (s : string) : bool :=
  match s with
  | EmptyString => true
  | String c EmptyString => Ascii.eqb c newline
  | _ => false
  end.

(** The first [k] characters of [s] when they are all digits, with the
    rest of [s]. *)
Fixpoint take_digits (k : nat) (s : string) : option (string * string) :=
  match k with
  | O => Some (EmptyString, s)
  | S k' =>
      match s with
      | EmptyString => None
      | String c s' =>
          if is_digit c then
            match take_digits k' s' with
            | Some (d, r) => Some (String c d, r)
            | None => None
            end
          else None
      end
  end.

(** [\d{lo,lo+n}] followed by the continuation [k]: counts are tried
    from [lo+n] down to [lo]. *)
Fixpoint greedy (lo n : nat) (s : string)
    (k : string -> option (list string)) : option (list string) :=
  let next := match n with
              | O => None
              | S n' => greedy lo n' s k
              end in
  match take_digits (lo + n) s with
  | Some (d, r) =>
      match k r with
      | Some groups => Some (d :: groups)
      | None => next
      end
  | None => next
  end.

(** Match the pattern at the start of [s]; the result is the text of
    the capturing groups, in order. *)
Fixpoint match_here (p : list item) (s : string) : option (list string) :=
  match p with
  | [] => Some []
  | Lit c :: p' =>
      match s with
      | EmptyString => None
      | String c' s' => if Ascii.eqb c c' then match_here p' s' else None
      end
  | Digits lo hi :: p' =>
      if (lo <=? hi)%nat then greedy lo (hi - lo) s (match_here p')
      else None
  | Dollar :: p' =>
      if at_dollar s then match_here p' s else None
  end.

(** [re.search(p, s)]: the match at the leftmost position that has one.
    The result is [match.groups()]. *)
Fixpoint search (p : list item) (s : string) : option (list string) :=
  match match_here p s with
  | Some groups => Some groups
  | None =>
      match s with
      | EmptyString => None
      | String _ s' => search p s'
      end
  end.

End Re.

(** ** [int] and [datetime] *)

Definition digit_value (c : ascii) : Z := Z.of_N (N_of_ascii c) - 48.

Fixpoint int_acc (acc : Z) (s : string) : Z :=
  match s with
  | EmptyString => acc
  | String c s' => int_acc (10 * acc + digit_value c) s'
  end.

(** [int(s)] on a string of decimal digits.  The callers only pass text
    captured by [\d] groups; anything else is reported as [ValueError]. *)
Definition int (s : string) : result Z :=
  match s with
  | EmptyString => Raise ValueError
  | _ => if all_digits s then Return (int_acc 0 s) else Raise ValueError
  end.

(** A [datetime] built from a year, a month and a day: the time of day is
    midnight, and there is no time zone. *)
Record datetime : Type := mk_datetime {
  dt_year : Z;
  dt_month : Z;
  dt_day : Z
}.

Definition MINYEAR : Z := 1.
Definition MAXYEAR : Z := 9999.

Definition is_leap (year : Z) : bool :=
  (year mod 4 =? 0) && (negb (year mod 100 =? 0) || (year mod 400 =? 0)).

Definition days_in_month (year month : Z) : Z :=
  if (month =? 2) && is_leap year then 29
  else match month with
       | 1 => 31 | 2 => 28 | 3 => 31 | 4 => 30 | 5 => 31 | 6 => 30
       | 7 => 31 | 8 => 31 | 9 => 30 | 10 => 31 | 11 => 30 | 12 => 31
       | _ => -1
       end.

(** [datetime(year, month, day)] raises [ValueError] unless the fields
    form a date of the proleptic Gregorian calendar. *)
Definition new_datetime (year month day : Z) : result datetime :=
  if negb ((MINYEAR <=? year) && (year <=? MAXYEAR)) then Raise ValueError
  else if negb ((1 <=? month) && (month <=? 12)) then Raise ValueError
  else if negb ((1 <=? day) && (day <=? days_in_month year month))
       then Raise ValueError
  else Return (mk_datetime year month day).

(** [a < b] on datetimes. *)
Definition datetime_lt (a b : datetime) : bool :=
  (dt_year a <? dt_year b)
  || ((dt_year a =? dt_year b)
      && ((dt_month a <? dt_month b)
          || ((dt_month a =? dt_month b) && (dt_day a <? dt_day b)))).

Definition datetime_eqb (a b : datetime) : bool :=
  (dt_year a =? dt_year b) && (dt_month a =? dt_month b)
  && (dt_day a =? dt_day b).

(** ** [extract_date_from_filename] *)

(** [r'_(\d{1,2})-(\d{1,2})-(\d{2})\.html$'] *)
Definition pattern : list Re.item :=
  [ Re.Lit "_"; Re.Digits 1 2; Re.Lit "-"; Re.Digits 1 2; Re.Lit "-";
    Re.Digits 2 2; Re.Lit "."; Re.Lit "h"; Re.Lit "t"; Re.Lit "m";
    Re.Lit "l"; Re.Dollar ].

Definition extract_date_from_filename (filename : string)
  : result (option datetime) :=
  match Re.search pattern filename with
  | Some groups =>
      match groups with
      | [month; day; year] =>
          (y <- int year ;;
           let full_year := 2000 + y in
           try_except
             (m <- int month ;;
              d <- int day ;;
              date <- new_datetime full_year m d ;;
              Return (Some date))
             (Return None))%result
      | _ => Raise ValueError      (* the unpacking would fail *)
      end
  | None => Return None
  end.

(** ** [list.sort] and [sorted]

    Python's sort compares with [<] only and is stable.  Each element in
    turn is inserted into the sorted run before it, after every element
    that is not greater than it. *)

Section Sort.
Context {A : Type} (lt : A -> A -> bool).

Fixpoint insert (x : A) (run : list A) : list A :=
  match run with
  | [] => [x]
  | y :: run' => if lt x y then x :: run else y :: insert x run'
  end.

Fixpoint sort_into (run l : list A) : list A :=
  match l with
  | [] => run
  | x :: l' => sort_into (insert x run) l'
  end.

Definition stable_sort (l : list A) : list A := sort_into [] l.
End Sort.

(** [l.sort(key=key, reverse=reverse)]: a reverse sort reverses the list,
    sorts it forward, and reverses the result, which keeps it stable. *)
Definition list_sort {A K : Type} (lt : K -> K -> bool) (key : A -> K)
    (reverse : bool) (l : list A) : list A :=
  let lt_key := fun a b => lt (key a) (key b) in
  if reverse then rev (stable_sort lt_key (rev l))
  else stable_sort lt_key l.

(** [sorted(l)] on a list of strings. *)
Definition sorted (l : list string) : list string :=
  list_sort String.ltb (fun s => s) false l.

(** ** [json.dump(obj, f, indent=2)] for a list of strings *)

Definition dquote : ascii := "034"%char.
Definition backslash : ascii := "092"%char.

Definition hex_digit (n : N) : ascii :=
  if (n <? 10)%N then ascii_of_N (48 + n) else ascii_of_N (87 + n).

(** The replacement of one character under [ensure_ascii=True]. *)
Definition escape_char (c : ascii) : string :=
  let n := N_of_ascii c in
  if Ascii.eqb c backslash then String backslash (String backslash "")
  else if Ascii.eqb c dquote then String backslash (String dquote "")
  else if (n =? 8)%N then String backslash "b"
  else if (n =? 12)%N then String backslash "f"
  else if (n =? 10)%N then String backslash "n"
  else if (n =? 13)%N then String backslash "r"
  else if (n =? 9)%N then String backslash "t"
  else if ((32 <=? n) && (n <=? 126))%N then String c ""
  else String backslash
         (String "u" (String "0" (String "0"
           (String (hex_digit (n / 16)) (String (hex_digit (n mod 16)) ""))))).

Fixpoint escape (s : string) : string :=
  match s with
  | EmptyString => EmptyString
  | String c s' => (escape_char c ++ escape s')%string
  end.

Definition encode_str (s : string) : string :=
  String dquote (escape s ++ String dquote "")%string.

Fixpoint spaces (n : nat) : string :=
  match n with
  | O => EmptyString
  | S n' => String " " (spaces n')
  end.

Fixpoint encode_items (separator : string) (l : list string) : string :=
  match l with
  | [] => EmptyString
  | s :: l' => (separator ++ encode_str s ++ encode_items separator l')%string
  end.

Definition json_dumps (l : list string) (indent : nat) : string :=
  match l with
  | [] => "[]"
  | s :: l' =>
      let newline_indent := String newline (spaces indent) in
      let separator := String "," newline_indent in
      ("[" ++ newline_indent ++ encode_str s ++ encode_items separator l'
         ++ String newline "]")%string
  end.

(** ** The world: the directory [docs] and the standard output *)

(** A directory is the list of its entries, name and content, in the
    order in which it is enumerated. *)
Definition directory : Type := list (string * string).

Record world : Type := mk_world {
  docs : option directory;      (* [None]: there is no [docs] *)
  stdout : list string;         (* the text of each [print], oldest first *)
  fresh_slot : nat                (* where the system puts a new entry *)
}.

Definition IO (A : Type) : Type := world -> result A * world.

Definition ret {A : Type} (a : A) : IO A := fun w => (Return a, w).

Definition bind {A B : Type} (m : IO A) (k : A -> IO B) : IO B :=
  fun w =>
    match m w with
    | (Return a, w') => k a w'
    | (Raise e, w') => (Raise e, w')
    end.

Definition lift {A : Type} (r : result A) : IO A := fun w => (r, w).

Declare Scope io_scope.
Delimit Scope io_scope with io.
Notation "x <- m ;; k" := (bind m (fun x => k))
  (at level 61, m at next level, right associativity) : io_scope.
Notation "m ;; k" := (bind m (fun _ => k))
  (at level 61, right associativity) : io_scope.

Definition print (line : string) : IO unit :=
  fun w => (Return tt, mk_world (docs w) (stdout w ++ [line]) (fresh_slot w)).

(** Paths are lists of components; every path of the program starts at
    [docs]. *)
Definition Path : Type := list string.

Definition path_str (p : Path) : string := String.concat "/" p.
Definition path_name (p : Path) : string := last p "".
Definition path_join (p : Path) (child : string) : Path := p ++ [child].

Definition path_exists (p : Path) : IO bool :=
  fun w =>
    match p, docs w with
    | ["docs"%string], Some _ => (Return true, w)
    | _, _ => (Return false, w)
    end.

(** [p.glob('*' + suffix)]: the entries of the directory whose name ends
    with [suffix], in enumeration order. *)
Definition glob_suffix (p : Path) (suffix : string) : IO (list Path) :=
  fun w =>
    match p, docs w with
    | ["docs"%string], Some entries =>
        (Return (map (path_join p)
                   (filter (fun name => endswith name suffix)
                      (map fst entries))), w)
    | _, _ => (Return [], w)
    end.

Fixpoint replace_entry (name content : string) (d : directory) : directory :=
  match d with
  | [] => []
  | (n, c) :: d' =>
      if String.eqb n name then (n, content) :: d'
      else (n, c) :: replace_entry name content d'
  end.

Definition has_entry (name : string) (d : directory) : bool :=
  existsb (fun e => String.eqb (fst e) name) d.

(** Writing a file truncates the entry when there is one and otherwise
    creates it, at the slot the system chooses. *)
Definition write_entry (slot : nat) (name content : string) (d : directory)
  : directory :=
  if has_entry name d then replace_entry name content d
  else firstn slot d ++ (name, content) :: skipn slot d.

(** [with open(p, 'w', encoding='utf-8') as f: f.write(text)] *)
Definition write_text (p : Path) (text : string) : IO unit :=
  fun w =>
    match p, docs w with
    | ["docs"%string; name], Some entries =>
        (Return tt,
         mk_world (Some (write_entry (fresh_slot w) name text entries))
           (stdout w) (fresh_slot w))
    | _, _ => (Raise OSError, w)
    end.

Definition read_entry (name : string) (d : directory) : option string :=
  option_map snd (find (fun e => String.eqb (fst e) name) d).

(** The content of [docs/files.json], when there is such a file. *)
Definition manifest_file (w : world) : option string :=
  match docs w with
  | Some entries => read_entry "files.json" entries
  | None => None
  end.

(** ** [main] *)

Definition str_of_nat (n : nat) : string :=
  NilEmpty.string_of_uint (Nat.to_uint n).

(** The body of [for file_path in html_files]. *)
Fixpoint for_file_path_in (html_files : list Path)
    (files_with_dates : list (datetime * string))
    (files_without_dates : list string)
  : result (list (datetime * string) * list string) :=
  match html_files with
  | [] => Return (files_with_dates, files_without_dates)
  | file_path :: rest =>
      let filename := path_name file_path in
      (date <- extract_date_from_filename filename ;;
       match date with
       | Some d =>
           for_file_path_in rest
             (files_with_dates ++ [(d, filename)]) files_without_dates
       | None =>
           for_file_path_in rest
             files_with_dates (files_without_dates ++ [filename])
       end)%result
  end.

Definition main : IO unit :=
  (let docs_dir : Path := ["docs"%string] in
   found <- path_exists docs_dir ;;
   if negb found then
     print ("Error: " ++ path_str docs_dir ++ " directory not found") ;;
     ret tt
   else
     html_files <- glob_suffix docs_dir ".html" ;;
     lists <- lift (for_file_path_in html_files [] []) ;;
     let files_with_dates := fst lists in
     let files_without_dates := snd lists in
     let files_with_dates :=
       list_sort datetime_lt fst true files_with_dates in
     let sorted_filenames :=
       map snd files_with_dates ++ sorted files_without_dates in
     let output_path := path_join docs_dir "files.json" in
     write_text output_path (json_dumps sorted_filenames 2) ;;
     print ("✓ Generated " ++ path_str output_path) ;;
     print ("  Total files: " ++ str_of_nat (List.length sorted_filenames)) ;;
     print ("  Dated files: " ++ str_of_nat (List.length files_with_dates)) ;;
     print ("  Undated files: " ++ str_of_nat (List.length files_without_dates)) ;;
     match sorted_filenames with
     | [] => ret tt
     | newest :: _ =>
         print (String newline "Newest file: " ++ newest) ;;
         if (1 <? List.length sorted_filenames)%nat then
           print ("Oldest file: " ++ last sorted_filenames "")
         else ret tt
     end)%io.

(** ** Notions used in the statements *)

(** [a] is not greater than [b] for the order [lt]. *)
Definition not_gt {A : Type} (lt : A -> A -> bool) (a b : A) : Prop :=
  lt b a = false.

(** The last character of a string, when it has one. *)
Fixpoint last_char (s : string) : option ascii :=
  match s with
  | EmptyString => None
  | String c EmptyString => Some c
  | String _ s' => last_char s'
  end.

(** [s] is a run of between [lo] and [hi] digits. *)
Definition digits_between (lo hi : nat) (s : string) : bool :=
  all_digits s && (lo <=? String.length s)%nat && (String.length s <=? hi)%nat.

(** The three fields of a date suffix: one or two digits, one or two
    digits, exactly two digits. *)
Definition date_fields (m d y : string) : bool :=
  digits_between 1 2 m && digits_between 1 2 d && digits_between 2 2 y.

(** An underscore, the month, a hyphen, the day, a hyphen, the year and
    the literal [.html]. *)
Definition dated_suffix (m d y : string) : string :=
  ("_" ++ m ++ "-" ++ d ++ "-" ++ y ++ ".html")%string.

(** [s] ends with a date suffix whose fields are [m], [d] and [y]. *)
Definition ends_with_date (s m d y : string) : Prop :=
  date_fields m d y = true /\ exists pre, s = (pre ++ dated_suffix m d y)%string.

(** The number a run of decimal digits denotes. *)
Definition decimal (s : string) : Z := int_acc 0 s.

(** The triple is a date of the calendar: the month is one of the twelve
    and the day is one of the days of that month in that year. *)
Definition valid_calendar_date (year month day : Z) : bool :=
  (1 <=? month) && (month <=? 12)
  && (1 <=? day) && (day <=? days_in_month year month).

(** What the function returns once the pattern has matched. *)
Definition date_of_fields (m d y : string) : option datetime :=
  let year := 2000 + decimal y in
  if valid_calendar_date year (decimal m) (decimal d)
  then Some (mk_datetime year (decimal m) (decimal d))
  else None.

(** The names [glob('*.html')] yields, in enumeration order. *)
Definition html_names (entries : directory) : list string :=
  filter (fun name => endswith name ".html") (map fst entries).

(** The date of a name, when it has one. *)
Definition date_of (filename : string) : option datetime :=
  match extract_date_from_filename filename with
  | Return date => date
  | Raise _ => None
  end.

Definition is_dated (filename : string) : bool :=
  match date_of filename with
  | Some _ => true
  | None => false
  end.

Definition dated_pairs (names : list string) : list (datetime * string) :=
  flat_map (fun f => match date_of f with
                     | Some d => [(d, f)]
                     | None => []
                     end) names.

Definition undated_names (names : list string) : list string :=
  filter (fun f => negb (is_dated f)) names.

(** The list [main] serialises. *)
Definition sorted_filenames_of (names : list string) : list string :=
  map snd (list_sort datetime_lt fst true (dated_pairs names))
  ++ sorted (undated_names names).

(** The lines [main] prints after it has written the file. *)
Definition summary (sorted_filenames : list string) (dated undated : nat)
  : list string :=
  [ "✓ Generated docs/files.json";
    "  Total files: " ++ str_of_nat (List.length sorted_filenames);
    "  Dated files: " ++ str_of_nat dated;
    "  Undated files: " ++ str_of_nat undated ]%string
  ++ match sorted_filenames with
     | [] => []
     | newest :: _ =>
         (String newline "Newest file: " ++ newest)%string
         :: (if (1 <? List.length sorted_filenames)%nat
             then [("Oldest file: " ++ last sorted_filenames "")%string]
             else [])
     end.

Definition missing_directory : string := "Error: docs directory not found".

Definition hex_value (c : ascii) : N :=
  let n := N_of_ascii c in
  if (n <? 58)%N then (n - 48)%N else (n - 87)%N.

(** Read back one character of the body of a JSON string. *)
Definition decode_char (s : string) : option (ascii * string) :=
  match s with
  | EmptyString => None
  | String c r =>
      if Ascii.eqb c dquote then None
      else if Ascii.eqb c backslash then
        match r with
        | String "b" r' => Some (ascii_of_N 8, r')
        | String "f" r' => Some (ascii_of_N 12, r')
        | String "n" r' => Some (ascii_of_N 10, r')
        | String "r" r' => Some (ascii_of_N 13, r')
        | String "t" r' => Some (ascii_of_N 9, r')
        | String "u" (String _ (String _ (String h (String l r')))) =>
            Some (ascii_of_N (16 * hex_value h + hex_value l), r')
        | String k r' => Some (k, r')
        | EmptyString => None
        end
      else Some (c, r)
  end.

(** [main] returns without an exception and leaves [docs/files.json]
    holding the serialisation of [manifest]. *)
Definition writes_manifest (w : world) (manifest : list string) : Prop :=
  fst (main w) = Return tt
  /\ manifest_file (snd (main w)) = Some (json_dumps manifest 2).

(** [f] comes no earlier than [g]: both have a date and the date of [f]
    is not before the date of [g]. *)
Definition not_older (f g : string) : Prop :=
  match date_of f, date_of g with
  | Some a, Some b => datetime_lt a b = false
  | _, _ => False
  end.

(** The date of [f] is [d]. *)
Definition has_date (d : datetime) (f : string) : bool :=
  match date_of f with
  | Some d' => datetime_eqb d' d
  | None => false
  end.

Definition sorted_pairs (names : list string) : list (datetime * string) :=
  list_sort datetime_lt fst true (dated_pairs names).

Definition example_files : list string :=
  [ "report_01-15-24.html"; "notes_12-31-23.html"; "index.html";
    "draft_02-30-24.html" ]%string.

Definition example_manifest : list string :=
  [ "report_01-15-24.html"; "notes_12-31-23.html"; "draft_02-30-24.html";
    "index.html" ]%string.

Definition demo_entries : directory :=
  [ ("index.html", "<html></html>"); ("draft_02-30-24.html", "draft");
    ("style.css", "body {}"); ("notes_12-31-23.html", "notes");
    ("files.json", "[]"); ("report_01-15-24.html", "report") ]%string.

Definition demo_world : world := mk_world (Some demo_entries) [] 0.

Definition empty_world : world := mk_world None [] 0.

(** The name [a_01-15-24.html] followed by a newline. *)
Definition newline_name : string :=
  ("a_01-15-24.html" ++ String newline "")%string.

Definition plain_entries : directory :=
  [ ("style.css", "body {}"); ("files.json", "[1]") ]%string.

Definition tied_entries : directory :=
  [ ("b_1-2-24.html", ""); ("old_1-1-24.html", ""); ("a_01-02-24.html", "") ]%string.

(** Every character of [s] satisfies [P]. *)
Fixpoint all_chars (P : ascii -> bool) (s : string) : bool :=
  match s with
  | EmptyString => true
  | String c s' => P c && all_chars P s'
  end.

(** A newline or a printable character of ASCII, space to tilde. *)
Definition plain_ascii (c : ascii) : bool :=
  Ascii.eqb c newline
  || ((32 <=? N_of_ascii c) && (N_of_ascii c <=? 126))%N.

(** The number of occurrences of [c] in [s]. *)
Fixpoint count_char (c : ascii) (s : string) : nat :=
  match s with
  | EmptyString => O
  | String c' s' => (if Ascii.eqb c c' then 1 else 0) + count_char c s'
  end.

(** The entries of a directory other than the manifest file. *)
Definition other_entries (d : directory) : directory :=
  filter (fun e => negb (String.eqb (fst e) "files.json")) d.

Definition mixed_entries : directory :=
  [ ("b_c_01-05-24.html", "one"); ("zeta.html", "two");
    ("notes.txt", "three"); ("a_1-4-24.html", "four");
    ("alpha.html", "five") ]%string.

Definition mixed_world : world := mk_world (Some mixed_entries) [] 2.

Definition mixed_entries_shuffled : directory :=
  [ ("alpha.html", ""); ("files.json", "old"); ("a_1-4-24.html", "");
    ("zeta.html", ""); ("b_c_01-05-24.html", "") ]%string.

Definition mixed_manifest : list string :=
  [ "b_c_01-05-24.html"; "a_1-4-24.html"; "alpha.html"; "zeta.html" ]%string.

Definition mixed_entries_in_order : directory :=
  [ ("b_c_01-05-24.html", ""); ("a_1-4-24.html", ""); ("readme.md", "");
    ("alpha.html", ""); ("zeta.html", "") ]%string.

(** * Properties *)

Example extract_report :
  extract_date_from_filename "report_01-15-24.html"
  = Return (Some (mk_datetime 2024 1 15)).
Proof. reflexivity. Qed.

Example extract_feb30 :
  extract_date_from_filename "draft_02-30-24.html" = Return None.
Proof. reflexivity. Qed.

Example extract_index :
  extract_date_from_filename "index.html" = Return None.
Proof. reflexivity. Qed.

(** The model of the library functions agrees with Python on these
    inputs. *)

Example search_last_suffix :
  Re.search pattern "_1-2-03_4-5-06.html" = Some ["4"; "5"; "06"]%string.
Proof. reflexivity. Qed.

Example search_three_digits : Re.search pattern "x_123-4-05.html" = None.
Proof. reflexivity. Qed.

Example search_long_year : Re.search pattern "x_1-2-345.html" = None.
Proof. reflexivity. Qed.

Example search_short_year : Re.search pattern "a_1-2-3.html" = None.
Proof. reflexivity. Qed.

Example search_upper_case : Re.search pattern "a_01-15-24.HTML" = None.
Proof. reflexivity. Qed.

Example search_two_newlines :
  Re.search pattern
    ("a_01-15-24.html" ++ String newline (String newline ""))%string
  = None.
Proof. reflexivity. Qed.

Example datetime_leap_2000 :
  new_datetime 2000 2 29 = Return (mk_datetime 2000 2 29)
  /\ new_datetime 2100 2 29 = Raise ValueError
  /\ new_datetime 2024 13 1 = Raise ValueError
  /\ new_datetime 2024 1 0 = Raise ValueError.
Proof. repeat split. Qed.

Example list_sort_reverse_stable :
  list_sort Z.ltb fst true
    [ (1, "a"); (2, "b"); (1, "c"); (2, "d"); (0, "e") ]%string
  = [ (2, "b"); (2, "d"); (1, "a"); (1, "c"); (0, "e") ]%string.
Proof. reflexivity. Qed.

Example sorted_code_points :
  sorted [ "b"; "a"; "B"; "_"; "a1"; "a" ]%string
  = [ "B"; "_"; "a"; "a"; "a1"; "b" ]%string.
Proof. reflexivity. Qed.

Example json_dumps_empty : json_dumps [] 2 = "[]"%string.
Proof. reflexivity. Qed.

Example json_dumps_escapes :
  let q := String dquote "" in
  let nl := String newline "" in
  json_dumps
    [ "a";
      String "b" (String dquote (String backslash (String newline
        (String "127" (String "233" (String "001" "")))))) ]%string 2
  = ("[" ++ nl ++ "  " ++ q ++ "a" ++ q ++ "," ++ nl
     ++ "  " ++ q ++ "b" ++ String backslash q ++ String backslash ""
     ++ String backslash "" ++ String backslash "n"
     ++ String backslash "u007f" ++ String backslash "u00e9"
     ++ String backslash "u0001" ++ q ++ nl ++ "]")%string.
Proof. reflexivity. Qed.

(** ** Strings *)

Lemma append_assoc (a b c : string) :
  ((a ++ b) ++ c)%string = (a ++ (b ++ c))%string.
Proof. induction a as [|x a IH]; simpl; [reflexivity | now rewrite IH]. Qed.

Lemma append_nil_r (a : string) : (a ++ "")%string = a.
Proof. induction a as [|x a IH]; simpl; [reflexivity | now rewrite IH]. Qed.

Lemma occurs_append (c : ascii) (a b : string) :
  occurs c (a ++ b) = occurs c a || occurs c b.
Proof.
  induction a as [|x a IH]; simpl; [reflexivity |].
  now rewrite IH, orb_assoc.
Qed.

Lemma endswith_cons (x : ascii) (s suffix : string) :
  endswith (String x s) suffix
  = if String.eqb (String x s) suffix then true else endswith s suffix.
Proof. reflexivity. Qed.

Lemma endswith_append (a b : string) : endswith (a ++ b) b = true.
Proof.
  induction a as [|x a IH].
  - destruct b; [reflexivity |].
    cbn [append]. now rewrite endswith_cons, String.eqb_refl.
  - cbn [append]. rewrite endswith_cons, IH.
    now destruct (String.eqb _ _).
Qed.

Lemma endswith_inv (s suffix : string) :
  endswith s suffix = true -> exists a, s = (a ++ suffix)%string.
Proof.
  induction s as [|x s IH].
  - cbn [endswith].
    destruct (String.eqb_spec "" suffix) as [<-|]; [|discriminate].
    now exists "".
  - rewrite endswith_cons.
    destruct (String.eqb_spec (String x s) suffix) as [<-|_].
    + now exists "".
    + intros H. destruct (IH H) as [a ->]. now exists (String x a).
Qed.

Lemma last_char_append (a : string) (c : ascii) (b : string) :
  last_char (a ++ String c b) = last_char (String c b).
Proof.
  induction a as [|x a IH]; [reflexivity |].
  change (String x a ++ String c b)%string with (String x (a ++ String c b)).
  simpl last_char at 1. rewrite IH.
  destruct a; reflexivity.
Qed.

Lemma is_digit_not_underscore (c : ascii) :
  is_digit c = true -> Ascii.eqb "_" c = false.
Proof.
  intros H. destruct (Ascii.eqb_spec "_" c) as [<-|]; [discriminate | reflexivity].
Qed.

Lemma all_digits_no_underscore (s : string) :
  all_digits s = true -> occurs "_" s = false.
Proof.
  induction s as [|c s IH]; cbn [occurs all_digits]; [reflexivity |].
  intros [Hc Hs]%andb_true_iff.
  now rewrite (is_digit_not_underscore c Hc), IH.
Qed.

(** ** The matcher *)

Module ReFacts.
Import Re.

Lemma at_dollar_inv (s : string) :
  at_dollar s = true -> s = "" \/ s = String newline "".
Proof.
  destruct s as [|c [|? ?]]; simpl; try discriminate; auto.
  intros ->%Ascii.eqb_eq. now right.
Qed.

Lemma take_digits_sound (k : nat) : forall s d r,
  take_digits k s = Some (d, r) ->
  s = (d ++ r)%string /\ all_digits d = true /\ String.length d = k.
Proof.
  induction k as [|k IH]; intros s d r; simpl.
  - intros [= <- <-]. auto.
  - destruct s as [|c s]; [discriminate |].
    destruct (is_digit c) eqn:Hc; [|discriminate].
    destruct (take_digits k s) as [[d' r']|] eqn:Hk; [|discriminate].
    intros [= <- <-]. destruct (IH _ _ _ Hk) as (-> & Hd & Hl).
    simpl. now rewrite Hc, Hd, Hl.
Qed.

Lemma take_digits_exact (d r : string) :
  all_digits d = true -> take_digits (String.length d) (d ++ r) = Some (d, r).
Proof.
  induction d as [|c d IH]; simpl; [reflexivity |].
  intros [Hc Hd]%andb_true_iff. now rewrite Hc, (IH Hd).
Qed.

(** A digit group cannot run past a character that is not a digit. *)
Lemma take_digits_stop (d : string) (c : ascii) (r : string) : forall k,
  is_digit c = false -> (String.length d < k)%nat ->
  take_digits k (d ++ String c r) = None.
Proof.
  induction d as [|x d IH]; intros k Hc Hk; simpl in *.
  - destruct k; [lia |]. simpl. now rewrite Hc.
  - destruct k; [lia |]. simpl.
    destruct (is_digit x); [|reflexivity].
    rewrite IH by (auto; lia). reflexivity.
Qed.

Lemma greedy_sound (lo : nat) (k : string -> option (list string)) :
  forall n s groups,
    greedy lo n s k = Some groups ->
    exists d r rest,
      groups = d :: rest /\ s = (d ++ r)%string /\ all_digits d = true
      /\ (lo <= String.length d <= lo + n)%nat /\ k r = Some rest.
Proof.
  induction n as [|n IH]; intros s groups; simpl.
  - destruct (take_digits (lo + 0) s) as [[d r]|] eqn:Ht; [|discriminate].
    destruct (k r) as [rest|] eqn:Hk; [|discriminate].
    intros [= <-]. apply take_digits_sound in Ht as (-> & Hd & Hl).
    exists d, r, rest. repeat split; auto; lia.
  - assert (Hnext : greedy lo n s k = Some groups ->
             exists d r rest,
               groups = d :: rest /\ s = (d ++ r)%string
               /\ all_digits d = true
               /\ (lo <= String.length d <= lo + S n)%nat
               /\ k r = Some rest).
    { intros H. destruct (IH _ _ H) as (d & r & rest & ? & ? & ? & ? & ?).
      exists d, r, rest. repeat split; auto; lia. }
    destruct (take_digits (lo + S n) s) as [[d r]|] eqn:Ht; [|exact Hnext].
    destruct (k r) as [rest|] eqn:Hk; [|exact Hnext].
    intros [= <-]. apply take_digits_sound in Ht as (-> & Hd & Hl).
    exists d, r, rest. repeat split; auto; lia.
Qed.

(** When the digits are followed by a character that is not a digit and
    the rest of the pattern matches from there, the group is exactly
    the digits. *)
Lemma greedy_complete (lo : nat) (k : string -> option (list string))
    (d : string) (c : ascii) (r : string) (rest : list string) :
  forall n,
    all_digits d = true -> is_digit c = false ->
    (lo <= String.length d <= lo + n)%nat ->
    k (String c r) = Some rest ->
    greedy lo n (d ++ String c r) k = Some (d :: rest).
Proof.
  induction n as [|n IH]; intros Hd Hc Hl Hk; simpl.
  - replace (lo + 0)%nat with (String.length d) by lia.
    now rewrite take_digits_exact, Hk.
  - destruct (Nat.eq_dec (String.length d) (lo + S n)) as [E|E].
    + rewrite <- E. now rewrite take_digits_exact, Hk.
    + rewrite take_digits_stop by (auto; lia).
      apply IH; auto; lia.
Qed.

End ReFacts.

(** ** The date suffix *)

Lemma digits_between_inv (lo hi : nat) (s : string) :
  digits_between lo hi s = true ->
  all_digits s = true /\ (lo <= String.length s <= hi)%nat.
Proof.
  unfold digits_between.
  intros [[H1 H2%Nat.leb_le]%andb_true_iff H3%Nat.leb_le]%andb_true_iff.
  auto.
Qed.

Lemma digits_between_intro (lo hi : nat) (s : string) :
  all_digits s = true -> (lo <= String.length s <= hi)%nat ->
  digits_between lo hi s = true.
Proof.
  intros H [H1 H2]. unfold digits_between.
  rewrite H. apply Nat.leb_le in H1, H2. now rewrite H1, H2.
Qed.

Lemma date_fields_inv (m d y : string) :
  date_fields m d y = true ->
  digits_between 1 2 m = true /\ digits_between 1 2 d = true
  /\ digits_between 2 2 y = true.
Proof.
  unfold date_fields. intros [[? ?]%andb_true_iff ?]%andb_true_iff. auto.
Qed.

Lemma dated_suffix_append (m d y tail : string) :
  (dated_suffix m d y ++ tail)%string
  = String "_" (m ++ String "-" (d ++ String "-" (y ++ ".html" ++ tail)))%string.
Proof.
  unfold dated_suffix. cbn [append].
  rewrite !append_assoc. cbn [append].
  rewrite !append_assoc. cbn [append].
  now rewrite !append_assoc.
Qed.

Lemma dated_suffix_one_underscore (m d y tail : string) :
  date_fields m d y = true -> Re.at_dollar tail = true ->
  occurs "_" (m ++ String "-" (d ++ String "-" (y ++ ".html" ++ tail))) = false.
Proof.
  intros (Hm & Hd & Hy)%date_fields_inv Ht.
  apply digits_between_inv in Hm as [Hm _], Hd as [Hd _], Hy as [Hy _].
  rewrite occurs_append, (all_digits_no_underscore m Hm).
  cbn [occurs orb]. change (Ascii.eqb "_" "-") with false. cbn [orb].
  rewrite occurs_append, (all_digits_no_underscore d Hd).
  cbn [occurs orb]. change (Ascii.eqb "_" "-") with false. cbn [orb].
  rewrite occurs_append, (all_digits_no_underscore y Hy).
  destruct (ReFacts.at_dollar_inv tail Ht) as [-> | ->]; reflexivity.
Qed.

Module PatternFacts.
Import Re ReFacts.

Lemma match_lit_inv (c : ascii) (p : list item) (s : string) groups :
  match_here (Lit c :: p) s = Some groups ->
  exists s', s = String c s' /\ match_here p s' = Some groups.
Proof.
  cbn [match_here]. destruct s as [|c' s']; [discriminate |].
  destruct (Ascii.eqb_spec c c') as [<-|]; [|discriminate].
  intros H. now exists s'.
Qed.

Lemma match_digits_inv (lo hi : nat) (p : list item) (s : string) groups :
  match_here (Digits lo hi :: p) s = Some groups ->
  exists d r rest,
    groups = d :: rest /\ s = (d ++ r)%string
    /\ digits_between lo hi d = true /\ match_here p r = Some rest.
Proof.
  cbn [match_here]. destruct (Nat.leb_spec lo hi) as [Hle|]; [|discriminate].
  intros H. apply greedy_sound in H as (d & r & rest & ? & ? & ? & ? & ?).
  exists d, r, rest. repeat split; auto.
  apply digits_between_intro; auto. lia.
Qed.

Lemma match_digits_lit (lo hi : nat) (c : ascii) (p : list item)
    (d r : string) (rest : list string) :
  digits_between lo hi d = true -> is_digit c = false ->
  match_here (Lit c :: p) (String c r) = Some rest ->
  match_here (Digits lo hi :: Lit c :: p) (d ++ String c r) = Some (d :: rest).
Proof.
  intros [Hd Hl]%digits_between_inv Hc Hk.
  cbn [match_here] in *.
  assert (Hle : (lo <=? hi)%nat = true) by (apply Nat.leb_le; lia).
  rewrite Hle. apply greedy_complete; auto. lia.
Qed.

(** The pattern matches a date suffix that reaches the end of the
    string, or the newline that ends the string, and captures its three
    fields. *)
Lemma match_here_dated (m d y tail : string) :
  date_fields m d y = true -> at_dollar tail = true ->
  match_here pattern (dated_suffix m d y ++ tail) = Some [m; d; y].
Proof.
  intros (Hm & Hd & Hy)%date_fields_inv Ht.
  rewrite dated_suffix_append. unfold pattern.
  cbn [match_here]. rewrite Ascii.eqb_refl.
  change (match_here (Digits 1 2 :: Lit "-" :: Digits 1 2 :: Lit "-"
                      :: Digits 2 2 :: Lit "." :: Lit "h" :: Lit "t"
                      :: Lit "m" :: Lit "l" :: [Dollar])
            (m ++ String "-" (d ++ String "-" (y ++ ".html" ++ tail)))
          = Some [m; d; y]).
  apply match_digits_lit; auto.
  cbn [match_here]. rewrite Ascii.eqb_refl.
  change (match_here (Digits 1 2 :: Lit "-"
                      :: Digits 2 2 :: Lit "." :: Lit "h" :: Lit "t"
                      :: Lit "m" :: Lit "l" :: [Dollar])
            (d ++ String "-" (y ++ ".html" ++ tail))
          = Some [d; y]).
  apply match_digits_lit; auto.
  cbn [match_here]. rewrite Ascii.eqb_refl.
  change (match_here (Digits 2 2 :: Lit "." :: Lit "h" :: Lit "t"
                      :: Lit "m" :: Lit "l" :: [Dollar])
            (y ++ String "." ("html" ++ tail))
          = Some [y]).
  apply match_digits_lit; auto.
  cbn [match_here append]. rewrite !Ascii.eqb_refl, Ht. reflexivity.
Qed.

Lemma match_here_sound (s : string) groups :
  match_here pattern s = Some groups ->
  exists m d y tail,
    groups = [m; d; y] /\ s = (dated_suffix m d y ++ tail)%string
    /\ date_fields m d y = true /\ at_dollar tail = true.
Proof.
  unfold pattern. intros H.
  apply match_lit_inv in H as (s1 & -> & H).
  apply match_digits_inv in H as (m & r1 & g1 & -> & -> & Hm & H).
  apply match_lit_inv in H as (s2 & -> & H).
  apply match_digits_inv in H as (d & r2 & g2 & -> & -> & Hd & H).
  apply match_lit_inv in H as (s3 & -> & H).
  apply match_digits_inv in H as (y & r3 & g3 & -> & -> & Hy & H).
  apply match_lit_inv in H as (s4 & -> & H).
  apply match_lit_inv in H as (s5 & -> & H).
  apply match_lit_inv in H as (s6 & -> & H).
  apply match_lit_inv in H as (s7 & -> & H).
  apply match_lit_inv in H as (tail & -> & H).
  cbn [match_here] in H.
  destruct (at_dollar tail) eqn:Ht; [|discriminate].
  injection H as <-.
  exists m, d, y, tail. repeat split; auto.
  - now rewrite dated_suffix_append.
  - unfold date_fields. now rewrite Hm, Hd, Hy.
Qed.

Lemma underscore_split (c : ascii) (pre body body' : string) :
  occurs "_" body' = false ->
  String "_" body' = (String c pre ++ String "_" body)%string -> False.
Proof.
  intros Hu E. cbn [append] in E. injection E as _ E.
  rewrite E, occurs_append in Hu. cbn [occurs] in Hu.
  rewrite Ascii.eqb_refl, orb_true_r in Hu. discriminate.
Qed.

(** A match cannot start before the underscore of a date suffix that
    reaches the end: the matched text holds one underscore only. *)
Lemma match_here_before (c : ascii) (pre m d y tail : string) :
  date_fields m d y = true -> at_dollar tail = true ->
  match_here pattern (String c pre ++ dated_suffix m d y ++ tail) = None.
Proof.
  intros Hf Ht.
  destruct (match_here pattern _) as [groups|] eqn:H; [|reflexivity].
  exfalso.
  apply match_here_sound in H as (m' & d' & y' & tail' & _ & E & Hf' & Ht').
  rewrite !dated_suffix_append in E.
  eapply underscore_split; [|symmetry; exact E].
  now apply dated_suffix_one_underscore.
Qed.

Lemma search_dated (pre m d y tail : string) :
  date_fields m d y = true -> at_dollar tail = true ->
  search pattern (pre ++ dated_suffix m d y ++ tail) = Some [m; d; y].
Proof.
  intros Hf Ht. induction pre as [|c pre IH].
  - cbn [append].
    assert (H := match_here_dated m d y tail Hf Ht).
    destruct (dated_suffix m d y ++ tail)%string; cbn [search]; now rewrite H.
  - assert (H := match_here_before c pre m d y tail Hf Ht).
    cbn [append] in *. cbn [search]. now rewrite H.
Qed.

Lemma search_sound (s : string) groups :
  search pattern s = Some groups ->
  exists pre m d y tail,
    groups = [m; d; y] /\ s = (pre ++ dated_suffix m d y ++ tail)%string
    /\ date_fields m d y = true /\ at_dollar tail = true.
Proof.
  induction s as [|c s IH]; cbn [search].
  - destruct (match_here pattern "") eqn:H; [|discriminate].
    intros [= <-].
    apply match_here_sound in H as (m & d & y & tail & ? & ? & ? & ?).
    now exists "", m, d, y, tail.
  - destruct (match_here pattern (String c s)) eqn:H.
    + intros [= <-].
      apply match_here_sound in H as (m & d & y & tail & ? & ? & ? & ?).
      now exists "", m, d, y, tail.
    + intros H'. apply IH in H' as (pre & m & d & y & tail & ? & -> & ? & ?).
      now exists (String c pre), m, d, y, tail.
Qed.

End PatternFacts.

(** ** [int], [datetime] and the extraction *)

Lemma digit_value_range (c : ascii) :
  is_digit c = true -> 0 <= digit_value c <= 9.
Proof.
  unfold is_digit, digit_value.
  intros [H1%N.leb_le H2%N.leb_le]%andb_true_iff. lia.
Qed.

Lemma int_digits (lo hi : nat) (s : string) :
  (1 <= lo)%nat -> digits_between lo hi s = true ->
  int s = Return (decimal s).
Proof.
  intros Hlo [Hd Hl]%digits_between_inv. unfold int.
  destruct s as [|c s]; [simpl in Hl; lia |]. now rewrite Hd.
Qed.

Lemma decimal_two_digits (y : string) :
  digits_between 2 2 y = true -> 0 <= decimal y <= 99.
Proof.
  intros [Hd Hl]%digits_between_inv.
  destruct y as [|a [|b [|? ?]]]; simpl in Hl; try lia.
  cbn [all_digits] in Hd.
  apply andb_true_iff in Hd as [Ha [Hb _]%andb_true_iff].
  apply digit_value_range in Ha, Hb.
  unfold decimal. cbn [int_acc]. lia.
Qed.

(** In the years the program can produce, every fourth year is a leap
    year, 2000 included. *)
Lemma is_leap_2000s (yy : Z) :
  0 <= yy <= 99 -> is_leap (2000 + yy) = (yy mod 4 =? 0).
Proof.
  intros H. unfold is_leap.
  replace ((2000 + yy) mod 4) with (yy mod 4)
    by (rewrite Z.add_comm; change 2000 with (500 * 4); now rewrite Z.mod_add).
  replace ((2000 + yy) mod 100) with yy
    by (rewrite Z.add_comm; change 2000 with (20 * 100);
        rewrite Z.mod_add by lia; rewrite Z.mod_small; lia).
  replace ((2000 + yy) mod 400) with yy
    by (rewrite Z.add_comm; change 2000 with (5 * 400);
        rewrite Z.mod_add by lia; rewrite Z.mod_small; lia).
  destruct (yy =? 0); cbn [negb orb]; apply andb_true_r.
Qed.

Lemma valid_calendar_date_iff (year month day : Z) :
  valid_calendar_date year month day = true
  <-> 1 <= month <= 12 /\ 1 <= day <= days_in_month year month.
Proof.
  unfold valid_calendar_date.
  rewrite !andb_true_iff, !Z.leb_le. tauto.
Qed.

Lemma new_datetime_spec (year month day : Z) :
  MINYEAR <= year <= MAXYEAR ->
  new_datetime year month day
  = if valid_calendar_date year month day
    then Return (mk_datetime year month day) else Raise ValueError.
Proof.
  intros [H1%Z.leb_le H2%Z.leb_le]. unfold new_datetime, valid_calendar_date.
  rewrite H1, H2. cbn [andb negb].
  destruct (1 <=? month), (month <=? 12), (1 <=? day),
    (day <=? days_in_month year month); reflexivity.
Qed.

Lemma extract_matched (pre m d y tail : string) :
  date_fields m d y = true -> Re.at_dollar tail = true ->
  extract_date_from_filename (pre ++ dated_suffix m d y ++ tail)
  = Return (date_of_fields m d y).
Proof.
  intros Hf Ht. unfold extract_date_from_filename.
  rewrite (PatternFacts.search_dated pre m d y tail Hf Ht).
  apply date_fields_inv in Hf as (Hm & Hd & Hy).
  rewrite (int_digits 2 2 y), (int_digits 1 2 m), (int_digits 1 2 d)
    by (auto; lia).
  cbn [rbind].
  rewrite new_datetime_spec
    by (pose proof (decimal_two_digits y Hy); unfold MINYEAR, MAXYEAR; lia).
  unfold date_of_fields.
  now destruct (valid_calendar_date _ _ _).
Qed.

(** The function always returns: a date or [None], never an exception. *)
Lemma extract_returns (filename : string) :
  exists date, extract_date_from_filename filename = Return date.
Proof.
  destruct (Re.search pattern filename) as [groups|] eqn:H.
  - apply PatternFacts.search_sound in H
      as (pre & m & d & y & tail & _ & -> & Hf & Ht).
    rewrite extract_matched by assumption. eauto.
  - unfold extract_date_from_filename. rewrite H. eauto.
Qed.

Lemma extract_some_inv (filename : string) (date : datetime) :
  extract_date_from_filename filename = Return (Some date) ->
  exists pre m d y tail,
    filename = (pre ++ dated_suffix m d y ++ tail)%string
    /\ date_fields m d y = true /\ Re.at_dollar tail = true
    /\ date_of_fields m d y = Some date.
Proof.
  destruct (Re.search pattern filename) as [groups|] eqn:H.
  - apply PatternFacts.search_sound in H
      as (pre & m & d & y & tail & _ & -> & Hf & Ht).
    rewrite extract_matched by assumption. intros [= E].
    now exists pre, m, d, y, tail.
  - unfold extract_date_from_filename. rewrite H. discriminate.
Qed.

(** A name that ends with [.html] and carries a date ends with a date
    suffix. *)
Lemma extract_some_html (filename : string) (date : datetime) :
  endswith filename ".html" = true ->
  extract_date_from_filename filename = Return (Some date) ->
  exists m d y, ends_with_date filename m d y
                /\ date_of_fields m d y = Some date.
Proof.
  intros Hh H.
  apply extract_some_inv in H as (pre & m & d & y & tail & -> & Hf & Ht & E).
  exists m, d, y. split; [split; [exact Hf |] | exact E].
  destruct (ReFacts.at_dollar_inv tail Ht) as [-> | ->].
  - exists pre. now rewrite append_nil_r.
  - exfalso. apply endswith_inv in Hh as [a Ha].
    apply (f_equal last_char) in Ha.
    unfold dated_suffix in Ha.
    rewrite <- !append_assoc in Ha.
    rewrite last_char_append in Ha.
    change (a ++ ".html")%string with (a ++ String "." "html")%string in Ha.
    rewrite last_char_append in Ha. discriminate.
Qed.

(** ** Sorting *)

Lemma StronglySorted_snoc {A : Type} (R : A -> A -> Prop) (l : list A) (x : A) :
  StronglySorted R l -> Forall (fun a => R a x) l -> StronglySorted R (l ++ [x]).
Proof.
  induction 1 as [|a l Hs IH Ha]; intros Hx; simpl.
  - constructor; constructor.
  - inversion Hx; subst. constructor; [auto |].
    apply Forall_app. split; [assumption | now constructor].
Qed.

Lemma StronglySorted_impl {A : Type} (R R' : A -> A -> Prop) (l : list A) :
  (forall a b, R a b -> R' a b) -> StronglySorted R l -> StronglySorted R' l.
Proof.
  intros HR. induction 1 as [|a l Hs IH Ha]; constructor; auto.
  eapply Forall_impl; [|exact Ha]. auto.
Qed.

Lemma StronglySorted_rev {A : Type} (R : A -> A -> Prop) (l : list A) :
  StronglySorted R l -> StronglySorted (fun a b => R b a) (rev l).
Proof.
  induction 1 as [|a l Hs IH Ha]; simpl; [constructor |].
  apply StronglySorted_snoc; [assumption |].
  apply Forall_rev. exact Ha.
Qed.

Lemma filter_rev {A : Type} (P : A -> bool) (l : list A) :
  filter P (rev l) = rev (filter P l).
Proof.
  induction l as [|a l IH]; simpl; [reflexivity |].
  rewrite filter_app, IH. simpl. destruct (P a); simpl.
  - reflexivity.
  - now rewrite app_nil_r.
Qed.

Section SortFacts.
Context {A : Type} (lt : A -> A -> bool).

Hypothesis lt_asym : forall a b, lt a b = true -> lt b a = false.
Hypothesis not_gt_trans :
  forall a b c, not_gt lt a b -> not_gt lt b c -> not_gt lt a c.

Lemma insert_perm (x : A) (run : list A) :
  Permutation (insert lt x run) (x :: run).
Proof.
  induction run as [|y run IH]; simpl; [reflexivity |].
  destruct (lt x y); [reflexivity |].
  rewrite IH. apply perm_swap.
Qed.

Lemma sort_into_perm (l : list A) : forall run,
  Permutation (sort_into lt run l) (run ++ l).
Proof.
  induction l as [|x l IH]; intros run; simpl.
  - now rewrite app_nil_r.
  - rewrite IH, insert_perm. apply Permutation_middle.
Qed.

Lemma stable_sort_perm (l : list A) : Permutation (stable_sort lt l) l.
Proof. apply (sort_into_perm l []). Qed.

Lemma insert_sorted (x : A) (run : list A) :
  StronglySorted (not_gt lt) run -> StronglySorted (not_gt lt) (insert lt x run).
Proof.
  induction 1 as [|y run Hs IH Hy]; simpl.
  - constructor; constructor.
  - destruct (lt x y) eqn:Hxy.
    + constructor; [now constructor |].
      assert (Hle : not_gt lt x y) by (apply lt_asym; exact Hxy).
      constructor; [exact Hle |].
      eapply Forall_impl; [|exact Hy].
      intros z Hz. eapply not_gt_trans; eassumption.
    + constructor; [exact IH |].
      eapply Permutation_Forall; [symmetry; apply insert_perm |].
      constructor; assumption.
Qed.

Lemma sort_into_sorted (l : list A) : forall run,
  StronglySorted (not_gt lt) run -> StronglySorted (not_gt lt) (sort_into lt run l).
Proof.
  induction l as [|x l IH]; intros run Hs; simpl; [exact Hs |].
  apply IH, insert_sorted, Hs.
Qed.

Lemma stable_sort_sorted (l : list A) :
  StronglySorted (not_gt lt) (stable_sort lt l).
Proof. apply sort_into_sorted. constructor. Qed.

(** Stability.  [P] selects elements none of which is less than
    another: elements with the same key. *)
Section Stable.
Variable P : A -> bool.
Hypothesis P_ties : forall a b, P a = true -> P b = true -> lt a b = false.

Lemma filter_after (x y : A) (run : list A) :
  P x = true -> lt x y = true -> Forall (not_gt lt y) run ->
  filter P (y :: run) = [].
Proof.
  intros Hx Hxy Hy.
  assert (Hall : Forall (fun z => lt x z = true) (y :: run)).
  { constructor; [exact Hxy |].
    eapply Forall_impl; [|exact Hy].
    intros z Hz. destruct (lt x z) eqn:Hxz; [reflexivity |].
    assert (H : not_gt lt y x) by (eapply not_gt_trans; eassumption).
    unfold not_gt in H. congruence. }
  induction Hall as [|z l Hz _ IH]; simpl; [reflexivity |].
  destruct (P z) eqn:Pz; [|exact IH].
  rewrite (P_ties x z Hx Pz) in Hz. discriminate.
Qed.

Lemma insert_filter (x : A) (run : list A) :
  StronglySorted (not_gt lt) run ->
  filter P (insert lt x run)
  = if P x then filter P run ++ [x] else filter P run.
Proof.
  induction 1 as [|y run Hs IH Hy].
  - simpl. now destruct (P x).
  - cbn [insert]. destruct (lt x y) eqn:Hxy.
    + destruct (P x) eqn:Px.
      * cbn [filter]. rewrite Px.
        change (if P y then y :: filter P run else filter P run)
          with (filter P (y :: run)).
        now rewrite (filter_after x y run Px Hxy Hy).
      * cbn [filter]. now rewrite Px.
    + cbn [filter]. rewrite IH.
      destruct (P y), (P x); reflexivity.
Qed.

Lemma sort_into_filter (l : list A) : forall run,
  StronglySorted (not_gt lt) run ->
  filter P (sort_into lt run l) = filter P run ++ filter P l.
Proof.
  induction l as [|x l IH]; intros run Hs; simpl.
  - now rewrite app_nil_r.
  - rewrite IH by (apply insert_sorted, Hs).
    rewrite insert_filter by exact Hs.
    destruct (P x); [now rewrite <- app_assoc | reflexivity].
Qed.

Lemma stable_sort_filter (l : list A) :
  filter P (stable_sort lt l) = filter P l.
Proof. apply (sort_into_filter l []). constructor. Qed.
End Stable.

End SortFacts.

Section ListSortFacts.
Context {A K : Type} (lt : K -> K -> bool) (key : A -> K).

Hypothesis lt_asym : forall a b, lt a b = true -> lt b a = false.
Hypothesis lt_not_gt_trans :
  forall a b c, lt b a = false -> lt c b = false -> lt c a = false.

Let lt_key := fun a b => lt (key a) (key b).

Lemma list_sort_perm (reverse : bool) (l : list A) :
  Permutation (list_sort lt key reverse l) l.
Proof.
  unfold list_sort. destruct reverse.
  - rewrite <- Permutation_rev, stable_sort_perm. symmetry. apply Permutation_rev.
  - apply stable_sort_perm.
Qed.

(** A forward sort leaves no element before a smaller one. *)
Lemma list_sort_forward (l : list A) :
  StronglySorted (fun a b => lt (key b) (key a) = false)
    (list_sort lt key false l).
Proof.
  unfold list_sort.
  apply (stable_sort_sorted lt_key); unfold not_gt, lt_key; eauto.
Qed.

(** A reverse sort leaves no element before a greater one. *)
Lemma list_sort_reverse (l : list A) :
  StronglySorted (fun a b => lt (key a) (key b) = false)
    (list_sort lt key true l).
Proof.
  unfold list_sort.
  apply (StronglySorted_rev (fun a b => lt (key b) (key a) = false)).
  apply (stable_sort_sorted lt_key); unfold not_gt, lt_key; eauto.
Qed.

(** Both directions keep elements with tied keys in their order. *)
Lemma list_sort_stable (P : A -> bool) (reverse : bool) (l : list A) :
  (forall a b, P a = true -> P b = true -> lt (key a) (key b) = false) ->
  filter P (list_sort lt key reverse l) = filter P l.
Proof.
  intros HP. unfold list_sort. destruct reverse.
  - rewrite filter_rev, (stable_sort_filter lt_key); unfold not_gt, lt_key; eauto.
    now rewrite filter_rev, rev_involutive.
  - apply (stable_sort_filter lt_key); unfold not_gt, lt_key; eauto.
Qed.

End ListSortFacts.

(** ** The two orders: dates and strings *)

Ltac datetime_order :=
  unfold datetime_lt;
  repeat match goal with
         | d : datetime |- _ => destruct d as [? ? ?]
         end;
  cbn [dt_year dt_month dt_day];
  rewrite ?orb_true_iff, ?orb_false_iff, ?andb_true_iff, ?andb_false_iff,
    ?Z.ltb_lt, ?Z.ltb_ge, ?Z.eqb_eq, ?Z.eqb_neq;
  intros;
  rewrite ?orb_true_iff, ?orb_false_iff, ?andb_true_iff, ?andb_false_iff,
    ?Z.ltb_lt, ?Z.ltb_ge, ?Z.eqb_eq, ?Z.eqb_neq.

Lemma datetime_lt_asym (a b : datetime) :
  datetime_lt a b = true -> datetime_lt b a = false.
Proof. datetime_order. lia. Qed.

Lemma datetime_lt_not_gt_trans (a b c : datetime) :
  datetime_lt b a = false -> datetime_lt c b = false -> datetime_lt c a = false.
Proof.
  datetime_order.
  repeat match goal with
         | H : _ /\ _ |- _ => destruct H
         end.
  lia.
Qed.

Lemma datetime_lt_irrefl (a : datetime) : datetime_lt a a = false.
Proof. datetime_order. lia. Qed.

Lemma datetime_tie (a b : datetime) :
  datetime_lt a b = false -> datetime_lt b a = false -> a = b.
Proof.
  datetime_order.
  repeat match goal with
         | H : _ /\ _ |- _ => destruct H
         end.
  f_equal; lia.
Qed.

Lemma datetime_eqb_eq (a b : datetime) : datetime_eqb a b = true <-> a = b.
Proof.
  unfold datetime_eqb. destruct a, b. cbn [dt_year dt_month dt_day].
  rewrite !andb_true_iff, !Z.eqb_eq. split.
  - intros [[-> ->] ->]. reflexivity.
  - intros [= -> -> ->]. auto.
Qed.

Lemma string_leb_trans (a : string) : forall b c,
  String.leb a b = true -> String.leb b c = true -> String.leb a c = true.
Proof.
  unfold String.leb.
  induction a as [|x a IH]; intros [|y b] [|z c]; simpl; try congruence.
  unfold Ascii.compare.
  destruct (N.compare_spec (N_of_ascii x) (N_of_ascii y)) as [Exy|Lxy|Gxy];
    try congruence;
    destruct (N.compare_spec (N_of_ascii y) (N_of_ascii z)) as [Eyz|Lyz|Gyz];
    try congruence;
    destruct (N.compare_spec (N_of_ascii x) (N_of_ascii z)) as [Exz|Lxz|Gxz];
    try congruence; try lia.
  apply IH.
Qed.

Lemma string_ltb_leb (a b : string) :
  String.ltb b a = false <-> String.leb a b = true.
Proof.
  unfold String.ltb, String.leb. rewrite (String.compare_antisym a b).
  destruct (String.compare b a); simpl; split; congruence.
Qed.

Lemma string_ltb_asym (a b : string) :
  String.ltb a b = true -> String.ltb b a = false.
Proof.
  unfold String.ltb. rewrite (String.compare_antisym a b).
  destruct (String.compare b a); simpl; congruence.
Qed.

Lemma string_ltb_not_gt_trans (a b c : string) :
  String.ltb b a = false -> String.ltb c b = false -> String.ltb c a = false.
Proof. rewrite !string_ltb_leb. apply string_leb_trans. Qed.

(** [sorted] returns its argument in ascending order. *)
Lemma sorted_ascending (l : list string) :
  StronglySorted (fun a b => String.leb a b = true) (sorted l).
Proof.
  eapply StronglySorted_impl;
    [| apply (list_sort_forward String.ltb (fun s : string => s)
                string_ltb_asym string_ltb_not_gt_trans l)].
  intros a b Hab. now apply string_ltb_leb.
Qed.

Lemma sorted_perm (l : list string) : Permutation (sorted l) l.
Proof. apply list_sort_perm. Qed.

(** ** The directory *)

Lemma html_names_in (entries : directory) (f : string) :
  In f (html_names entries)
  <-> In f (map fst entries) /\ endswith f ".html" = true.
Proof. unfold html_names. rewrite filter_In. tauto. Qed.

Lemma map_fst_replace_entry (name content : string) (d : directory) :
  map fst (replace_entry name content d) = map fst d.
Proof.
  induction d as [|[n c] d IH]; simpl; [reflexivity |].
  destruct (String.eqb n name); simpl; [reflexivity | now rewrite IH].
Qed.

Lemma read_replace_entry (name content : string) (d : directory) :
  has_entry name d = true ->
  read_entry name (replace_entry name content d) = Some content.
Proof.
  unfold read_entry, has_entry.
  induction d as [|[n c] d IH]; simpl; [discriminate |].
  destruct (String.eqb n name) eqn:E; simpl.
  - now rewrite E.
  - rewrite E. exact IH.
Qed.

Lemma has_entry_app (name : string) (a b : directory) :
  has_entry name (a ++ b) = has_entry name a || has_entry name b.
Proof. apply existsb_app. Qed.

Lemma read_write_entry (slot : nat) (name content : string) (d : directory) :
  read_entry name (write_entry slot name content d) = Some content.
Proof.
  unfold write_entry. destruct (has_entry name d) eqn:H.
  - now apply read_replace_entry.
  - rewrite <- (firstn_skipn slot d), has_entry_app in H.
    apply orb_false_iff in H as [H1 _].
    unfold read_entry.
    induction (firstn slot d) as [|e l IH]; simpl.
    + now rewrite String.eqb_refl.
    + unfold has_entry in H1. simpl in H1.
      apply orb_false_iff in H1 as [He Hl].
      rewrite He. now apply IH.
Qed.

(** Writing a file whose name does not end with [.html] leaves the
    [.html] names and their order as they were. *)
Lemma html_names_write_entry (slot : nat) (name content : string)
    (d : directory) :
  endswith name ".html" = false ->
  html_names (write_entry slot name content d) = html_names d.
Proof.
  intros Hn. unfold write_entry, html_names.
  destruct (has_entry name d).
  - now rewrite map_fst_replace_entry.
  - rewrite map_app, filter_app. cbn [map filter fst]. rewrite Hn.
    rewrite <- filter_app, <- map_app. now rewrite firstn_skipn.
Qed.

(** ** The loop *)

Lemma extract_date_of (filename : string) :
  extract_date_from_filename filename = Return (date_of filename).
Proof.
  unfold date_of. destruct (extract_returns filename) as [date ->].
  reflexivity.
Qed.

Lemma path_name_join (p : Path) (name : string) :
  path_name (path_join p name) = name.
Proof. unfold path_name, path_join. apply last_last. Qed.

Lemma for_file_path_in_spec (p : Path) (names : list string) :
  forall files_with_dates files_without_dates,
    for_file_path_in (map (path_join p) names)
      files_with_dates files_without_dates
    = Return (files_with_dates ++ dated_pairs names,
              files_without_dates ++ undated_names names).
Proof.
  induction names as [|f names IH]; intros fwd fwod.
  - simpl. now rewrite !app_nil_r.
  - cbn [map for_file_path_in]. rewrite path_name_join, extract_date_of.
    cbn [rbind]. unfold dated_pairs, undated_names, is_dated.
    cbn [flat_map filter].
    destruct (date_of f) as [d|]; rewrite IH; cbn [negb].
    + now rewrite <- app_assoc.
    + now rewrite <- app_assoc.
Qed.

Lemma dated_pairs_names (names : list string) :
  map snd (dated_pairs names) = filter is_dated names.
Proof.
  unfold dated_pairs, is_dated.
  induction names as [|f names IH]; simpl; [reflexivity |].
  destruct (date_of f); simpl; now rewrite IH.
Qed.

Lemma dated_pairs_in (names : list string) (d : datetime) (f : string) :
  In (d, f) (dated_pairs names) <-> In f names /\ date_of f = Some d.
Proof.
  unfold dated_pairs. rewrite in_flat_map. split.
  - intros (g & Hg & Hin). destruct (date_of g) eqn:E; simpl in Hin.
    + destruct Hin as [[= <- <-]|[]]. auto.
    + contradiction.
  - intros [Hf E]. exists f. split; [exact Hf |]. rewrite E. now left.
Qed.

(** ** What [main] does *)

Lemma main_missing (w : world) :
  docs w = None ->
  main w = (Return tt,
            mk_world None (stdout w ++ [missing_directory]) (fresh_slot w)).
Proof.
  intros H. unfold main, bind, path_exists, print, ret. rewrite H.
  cbn. now rewrite H.
Qed.

Lemma main_run (w : world) (entries : directory) :
  docs w = Some entries ->
  let names := html_names entries in
  let manifest := sorted_filenames_of names in
  main w
  = (Return tt,
     mk_world
       (Some (write_entry (fresh_slot w) "files.json"
                (json_dumps manifest 2) entries))
       (stdout w
        ++ summary manifest (List.length (dated_pairs names))
             (List.length (undated_names names)))
       (fresh_slot w)).
Proof.
  intros H names manifest.
  unfold main, bind, path_exists, glob_suffix, lift. rewrite H.
  cbn [negb]. rewrite H.
  fold (html_names entries). fold names.
  rewrite for_file_path_in_spec. cbn [app fst snd].
  fold (sorted_filenames_of names). fold manifest.
  unfold write_text, path_join. cbn [app]. rewrite H.
  unfold print, ret, summary. cbn [docs stdout fresh_slot].
  rewrite (Permutation_length
             (list_sort_perm datetime_lt fst true (dated_pairs names))).
  clearbody manifest.
  destruct manifest as [|newest rest].
  - rewrite <- !app_assoc. reflexivity.
  - destruct (1 <? List.length (newest :: rest))%nat;
      cbn [docs stdout fresh_slot]; rewrite <- !app_assoc; reflexivity.
Qed.

(** ** The serialised list determines the list *)

Lemma decode_escape_char (c : ascii) (r : string) :
  decode_char (escape_char c ++ r) = Some (c, r).
Proof.
  destruct c as [[] [] [] [] [] [] [] []]; reflexivity.
Qed.

Lemma escape_inj (s1 : string) : forall s2 r1 r2,
  (escape s1 ++ String dquote r1)%string = (escape s2 ++ String dquote r2)%string ->
  s1 = s2 /\ r1 = r2.
Proof.
  induction s1 as [|c1 s1 IH]; intros [|c2 s2] r1 r2; cbn [escape append].
  - intros [= ->]. auto.
  - rewrite append_assoc. intros E.
    apply (f_equal decode_char) in E.
    rewrite decode_escape_char in E. discriminate.
  - rewrite append_assoc. intros E.
    apply (f_equal decode_char) in E.
    rewrite decode_escape_char in E. discriminate.
  - rewrite !append_assoc. intros E.
    apply (f_equal decode_char) in E.
    rewrite !decode_escape_char in E. injection E as -> E.
    destruct (IH _ _ _ E) as [-> ->]. auto.
Qed.

Lemma append_cancel_l (a x y : string) :
  (a ++ x)%string = (a ++ y)%string -> x = y.
Proof. induction a as [|c a IH]; cbn [append]; [auto | intros [= E]; auto]. Qed.

Lemma encode_str_inj (s1 s2 r1 r2 : string) :
  (encode_str s1 ++ r1)%string = (encode_str s2 ++ r2)%string ->
  s1 = s2 /\ r1 = r2.
Proof.
  unfold encode_str. cbn [append]. rewrite !append_assoc. cbn [append].
  intros [= E]. now apply escape_inj.
Qed.

Lemma encode_items_inj (indent : string) (l1 : list string) : forall l2,
  (encode_items (String "," indent) l1 ++ String newline "]")%string
  = (encode_items (String "," indent) l2 ++ String newline "]")%string
  -> l1 = l2.
Proof.
  induction l1 as [|s1 l1 IH]; intros [|s2 l2]; cbn [encode_items].
  - reflexivity.
  - cbn [append]. discriminate.
  - cbn [append]. discriminate.
  - rewrite !append_assoc. intros E.
    apply append_cancel_l, encode_str_inj in E as [-> E].
    f_equal. now apply IH.
Qed.

Lemma json_dumps_inj (indent : nat) (l1 l2 : list string) :
  json_dumps l1 indent = json_dumps l2 indent -> l1 = l2.
Proof.
  destruct l1 as [|s1 l1], l2 as [|s2 l2]; unfold json_dumps; cbv zeta.
  - reflexivity.
  - cbn [append]. discriminate.
  - cbn [append]. discriminate.
  - intros E.
    apply append_cancel_l, append_cancel_l, encode_str_inj in E as [-> E].
    f_equal. eapply encode_items_inj. exact E.
Qed.

(** ** The manifest *)

Lemma writes_manifest_unique (w : world) (m1 m2 : list string) :
  writes_manifest w m1 -> writes_manifest w m2 -> m1 = m2.
Proof.
  intros [_ H1] [_ H2]. rewrite H1 in H2. injection H2 as H2.
  now apply json_dumps_inj in H2.
Qed.

Lemma main_writes (w : world) (entries : directory) :
  docs w = Some entries ->
  writes_manifest w (sorted_filenames_of (html_names entries)).
Proof.
  intros H. unfold writes_manifest. rewrite (main_run w entries H).
  cbn [fst snd]. split; [reflexivity |].
  unfold manifest_file. cbn [docs]. apply read_write_entry.
Qed.

Lemma StronglySorted_map {A B : Type} (R : A -> A -> Prop) (R' : B -> B -> Prop)
    (Q : A -> Prop) (g : A -> B) (l : list A) :
  (forall a b, Q a -> Q b -> R a b -> R' (g a) (g b)) ->
  Forall Q l -> StronglySorted R l -> StronglySorted R' (map g l).
Proof.
  intros HR HQ Hs. induction Hs as [|a l Hs IH Ha]; simpl; [constructor |].
  inversion HQ as [|? ? Qa Ql]; subst.
  constructor; [auto |].
  apply Forall_map. rewrite Forall_forall in *. auto.
Qed.

Lemma sorted_pairs_perm (names : list string) :
  Permutation (sorted_pairs names) (dated_pairs names).
Proof. apply list_sort_perm. Qed.

Lemma sorted_pairs_dates (names : list string) :
  Forall (fun p => date_of (snd p) = Some (fst p)) (sorted_pairs names).
Proof.
  apply Forall_forall. intros [d f] Hin.
  eapply Permutation_in in Hin; [|apply sorted_pairs_perm].
  apply dated_pairs_in in Hin. apply Hin.
Qed.

Lemma dated_part_perm (names : list string) :
  Permutation (map snd (sorted_pairs names)) (filter is_dated names).
Proof.
  rewrite <- dated_pairs_names. apply Permutation_map, sorted_pairs_perm.
Qed.

Lemma dated_part_sorted (names : list string) :
  StronglySorted not_older (map snd (sorted_pairs names)).
Proof.
  eapply StronglySorted_map;
    [| apply sorted_pairs_dates
     | apply (list_sort_reverse datetime_lt fst datetime_lt_asym
                datetime_lt_not_gt_trans)].
  intros [a f] [b g] Ha Hb H. cbn [fst snd] in *.
  unfold not_older. now rewrite Ha, Hb.
Qed.

Lemma filter_map_snd {A B : Type} (P : A * B -> bool) (Q : B -> bool)
    (l : list (A * B)) :
  Forall (fun p => Q (snd p) = P p) l ->
  filter Q (map snd l) = map snd (filter P l).
Proof.
  induction 1 as [|p l Hp Hl IH]; simpl; [reflexivity |].
  rewrite Hp, IH. now destruct (P p).
Qed.

Lemma filter_within {A : Type} (P Q : A -> bool) (l : list A) :
  (forall x, Q x = true -> P x = true) ->
  filter Q (filter P l) = filter Q l.
Proof.
  intros H. induction l as [|x l IH]; simpl; [reflexivity |].
  destruct (P x) eqn:Px; simpl; rewrite IH; [reflexivity |].
  destruct (Q x) eqn:Qx; [|reflexivity].
  rewrite (H x Qx) in Px. discriminate.
Qed.

(** The dated part keeps names with the same date in the order of the
    enumeration. *)
Lemma dated_part_stable (d : datetime) (names : list string) :
  filter (has_date d) (map snd (sorted_pairs names))
  = filter (has_date d) names.
Proof.
  set (P := fun p : datetime * string => datetime_eqb (fst p) d).
  assert (HP : forall l, Forall (fun p => date_of (snd p) = Some (fst p)) l ->
                         Forall (fun p => has_date d (snd p) = P p) l).
  { intros l. apply Forall_impl. intros [a f] H. unfold has_date, P.
    cbn [fst snd] in *. now rewrite H. }
  rewrite (filter_map_snd P) by apply HP, sorted_pairs_dates.
  unfold sorted_pairs.
  rewrite (list_sort_stable datetime_lt fst datetime_lt_asym
             datetime_lt_not_gt_trans P).
  - rewrite <- (filter_map_snd P (has_date d)).
    + rewrite dated_pairs_names. apply filter_within.
      intros f. unfold has_date, is_dated.
      now destruct (date_of f).
    + apply HP, Forall_forall. intros [a f] Hin.
      apply dated_pairs_in in Hin. apply Hin.
  - intros [a f] [b g]. unfold P. cbn [fst].
    intros ->%datetime_eqb_eq ->%datetime_eqb_eq. apply datetime_lt_irrefl.
Qed.

Lemma sorted_filenames_parts (names : list string) :
  sorted_filenames_of names
  = map snd (sorted_pairs names) ++ sorted (undated_names names).
Proof. reflexivity. Qed.

(** The manifest holds the [.html] names, each as often as it is
    enumerated. *)
Lemma manifest_perm (names : list string) :
  Permutation (sorted_filenames_of names) names.
Proof.
  rewrite sorted_filenames_parts, dated_part_perm, sorted_perm.
  unfold undated_names.
  induction names as [|f names IH]; simpl; [reflexivity |].
  destruct (is_dated f); simpl.
  - now constructor.
  - rewrite <- Permutation_middle. now constructor.
Qed.

(** ** The order of enumeration *)

Lemma Permutation_filter {A : Type} (P : A -> bool) (l l' : list A) :
  Permutation l l' -> Permutation (filter P l) (filter P l').
Proof.
  induction 1 as [| x l l' _ IH | x y l | l l' l'' _ IH1 _ IH2]; simpl.
  - reflexivity.
  - destruct (P x); [now constructor | exact IH].
  - destruct (P x), (P y); try reflexivity. apply perm_swap.
  - now transitivity (filter P l').
Qed.

Lemma Permutation_flat_map {A B : Type} (g : A -> list B) (l l' : list A) :
  Permutation l l' -> Permutation (flat_map g l) (flat_map g l').
Proof.
  induction 1 as [| x l l' _ IH | x y l | l l' l'' _ IH1 _ IH2]; simpl.
  - reflexivity.
  - now apply Permutation_app_head.
  - rewrite !app_assoc. apply Permutation_app_tail, Permutation_app_comm.
  - now transitivity (flat_map g l').
Qed.

(** Two sorted arrangements of the same elements are the same list when
    no two distinct elements are tied. *)
Lemma sorted_unique {A : Type} (R : A -> A -> Prop) (l1 : list A) :
  forall l2,
    (forall a b, In a l1 -> In b l1 -> R a b -> R b a -> a = b) ->
    StronglySorted R l1 -> StronglySorted R l2 -> Permutation l1 l2 ->
    l1 = l2.
Proof.
  induction l1 as [|a l1 IH]; intros l2 Hanti H1 H2 Hp.
  - now apply Permutation_nil in Hp.
  - destruct l2 as [|b l2].
    + symmetry in Hp. now apply Permutation_nil in Hp.
    + apply StronglySorted_inv in H1 as [H1 Ha], H2 as [H2 Hb].
      rewrite Forall_forall in Ha, Hb.
      assert (E : a = b).
      { assert (Hin_a : In a (b :: l2))
          by (eapply Permutation_in; [exact Hp | now left]).
        assert (Hin_b : In b (a :: l1))
          by (eapply Permutation_in; [symmetry; exact Hp | now left]).
        destruct Hin_a as [->|Hin_a]; [reflexivity |].
        destruct Hin_b as [->|Hin_b]; [reflexivity |].
        apply Hanti; [now left | now right | auto | auto]. }
      subst b. f_equal.
      apply IH; auto.
      * intros x y Hx Hy. apply Hanti; now right.
      * eapply Permutation_cons_inv. exact Hp.
Qed.

Lemma NoDup_fst_eq {A B : Type} (l : list (A * B)) (p q : A * B) :
  NoDup (map fst l) -> In p l -> In q l -> fst p = fst q -> p = q.
Proof.
  induction l as [|x l IH]; simpl; [contradiction |].
  intros Hn Hp Hq E. inversion Hn as [|? ? Hx Hl]; subst.
  destruct Hp as [->|Hp], Hq as [->|Hq]; auto.
  - exfalso. apply Hx. rewrite E. now apply in_map.
  - exfalso. apply Hx. rewrite <- E. now apply in_map.
Qed.

(** The manifest does not depend on the order of enumeration as long as
    no two names carry the same date. *)
Lemma manifest_order_independent (names names' : list string) :
  Permutation names names' ->
  NoDup (map fst (dated_pairs names)) ->
  sorted_filenames_of names = sorted_filenames_of names'.
Proof.
  intros Hp Hn. rewrite !sorted_filenames_parts. f_equal.
  - f_equal.
    apply (sorted_unique (fun a b => datetime_lt (fst a) (fst b) = false)).
    + intros p q Hin_p Hin_q Hpq Hqp.
      eapply Permutation_in in Hin_p; [|apply sorted_pairs_perm].
      eapply Permutation_in in Hin_q; [|apply sorted_pairs_perm].
      apply (NoDup_fst_eq (dated_pairs names)); auto.
      now apply datetime_tie.
    + apply list_sort_reverse;
        [apply datetime_lt_asym | apply datetime_lt_not_gt_trans].
    + apply list_sort_reverse;
        [apply datetime_lt_asym | apply datetime_lt_not_gt_trans].
    + rewrite !sorted_pairs_perm. now apply Permutation_flat_map.
  - apply (sorted_unique (fun a b => String.leb a b = true)).
    + intros a b _ _. apply String.leb_antisym.
    + apply sorted_ascending.
    + apply sorted_ascending.
    + rewrite !sorted_perm. now apply Permutation_filter.
Qed.

(** ** A directory to run the program on *)

Example main_demo :
  main demo_world
  = (Return tt,
     mk_world
       (Some
          [ ("index.html", "<html></html>"); ("draft_02-30-24.html", "draft");
            ("style.css", "body {}"); ("notes_12-31-23.html", "notes");
            ("files.json", json_dumps example_manifest 2);
            ("report_01-15-24.html", "report") ]%string)
       [ "✓ Generated docs/files.json"; "  Total files: 4";
         "  Dated files: 2"; "  Undated files: 2";
         String newline "Newest file: report_01-15-24.html";
         "Oldest file: index.html" ]%string
       0).
Proof. vm_compute. reflexivity. Qed.

(** * The properties of the specification *)

Lemma filter_none {A : Type} (P : A -> bool) (l : list A) :
  (forall x, In x l -> P x = false) -> filter P l = [].
Proof.
  induction l as [|x l IH]; intros H; simpl; [reflexivity |].
  rewrite (H x) by now left. apply IH. intros y Hy. apply H. now right.
Qed.

Lemma ends_with_date_html (filename m d y : string) :
  ends_with_date filename m d y -> endswith filename ".html" = true.
Proof.
  intros [_ [pre ->]]. unfold dated_suffix.
  rewrite <- !append_assoc. apply endswith_append.
Qed.

Lemma ends_with_date_extract (filename m d y : string) :
  ends_with_date filename m d y ->
  extract_date_from_filename filename = Return (date_of_fields m d y).
Proof.
  intros [Hf [pre ->]].
  rewrite <- (append_nil_r (dated_suffix m d y)).
  now apply extract_matched.
Qed.

(** The shape of the list [main] writes: the dated names, newest first,
    then the undated names in ascending order. *)
Lemma main_partition (w : world) (entries : directory) :
  docs w = Some entries ->
  exists dated undated,
    writes_manifest w (dated ++ undated)
    /\ Permutation dated (filter is_dated (html_names entries))
    /\ Permutation undated
         (filter (fun f => negb (is_dated f)) (html_names entries))
    /\ StronglySorted not_older dated
    /\ StronglySorted (fun f g => String.leb f g = true) undated.
Proof.
  intros H.
  exists (map snd (sorted_pairs (html_names entries))),
    (sorted (undated_names (html_names entries))).
  split; [exact (main_writes w entries H) |].
  split; [apply dated_part_perm |].
  split; [apply sorted_perm |].
  split; [apply dated_part_sorted | apply sorted_ascending].
Qed.

(** C1: whatever [.html] names the directory holds, the manifest written
    by [main] is the names that carry a date, newest first, followed by
    the names that carry none, in ascending lexicographic order. *)
Theorem main_manifest_order (w : world) (entries : directory) :
  docs w = Some entries ->
  exists dated undated,
    writes_manifest w (dated ++ undated)
    /\ Permutation dated (filter is_dated (html_names entries))
    /\ Permutation undated
         (filter (fun f => negb (is_dated f)) (html_names entries))
    /\ StronglySorted not_older dated
    /\ StronglySorted (fun f g => String.leb f g = true) undated.
Proof. apply main_partition. Qed.

Lemma main_manifest_order_witness :
  docs demo_world = Some demo_entries
  /\ exists dated undated,
       writes_manifest demo_world (dated ++ undated)
       /\ Permutation dated (filter is_dated (html_names demo_entries))
       /\ Permutation undated
            (filter (fun f => negb (is_dated f)) (html_names demo_entries))
       /\ StronglySorted not_older dated
       /\ StronglySorted (fun f g => String.leb f g = true) undated.
Proof.
  split; [reflexivity |].
  apply (main_manifest_order demo_world demo_entries). reflexivity.
Defined.

(** C2: a filename that ends with an underscore, one or two digits, a
    hyphen, one or two digits, a hyphen, two digits and [.html], and whose
    digits are a date of the calendar, has the date with year [2000 + YY],
    month [MM] and day [DD]. *)
Theorem extract_dated_filename (filename m d y : string) :
  ends_with_date filename m d y ->
  valid_calendar_date (2000 + decimal y) (decimal m) (decimal d) = true ->
  exists date,
    extract_date_from_filename filename = Return (Some date)
    /\ dt_year date = 2000 + decimal y
    /\ dt_month date = decimal m
    /\ dt_day date = decimal d.
Proof.
  intros He Hv. rewrite (ends_with_date_extract _ _ _ _ He).
  unfold date_of_fields. rewrite Hv.
  eexists. split; [reflexivity |]. cbn [dt_year dt_month dt_day]. auto.
Qed.

Lemma extract_dated_filename_witness :
  ends_with_date "report_1-05-24.html" "1" "05" "24"
  /\ valid_calendar_date (2000 + decimal "24") (decimal "1") (decimal "05")
     = true
  /\ exists date,
       extract_date_from_filename "report_1-05-24.html" = Return (Some date)
       /\ dt_year date = 2000 + decimal "24"
       /\ dt_month date = decimal "1"
       /\ dt_day date = decimal "05".
Proof.
  assert (He : ends_with_date "report_1-05-24.html" "1" "05" "24")
    by (split; [reflexivity | exists "report"; reflexivity]).
  split; [exact He |]. split; [reflexivity |].
  apply (extract_dated_filename "report_1-05-24.html" "1" "05" "24" He).
  reflexivity.
Defined.

(** C3: a filename whose suffix has the shape of a date suffix but whose
    digits are no date of the calendar has no date; [main] raises nothing
    and lists the name in the manifest, among the undated names. *)
Theorem invalid_date_is_undated (filename m d y : string) :
  ends_with_date filename m d y ->
  valid_calendar_date (2000 + decimal y) (decimal m) (decimal d) = false ->
  extract_date_from_filename filename = Return None
  /\ forall w entries,
       docs w = Some entries -> In filename (map fst entries) ->
       exists dated undated,
         writes_manifest w (dated ++ undated)
         /\ Forall (fun f => is_dated f = true) dated
         /\ Forall (fun f => is_dated f = false) undated
         /\ StronglySorted (fun f g => String.leb f g = true) undated
         /\ In filename undated.
Proof.
  intros He Hv.
  assert (Hx : extract_date_from_filename filename = Return None).
  { rewrite (ends_with_date_extract _ _ _ _ He).
    unfold date_of_fields. now rewrite Hv. }
  split; [exact Hx |].
  intros w entries Hw Hin.
  destruct (main_partition w entries Hw)
    as (dated & undated & Hwr & Hpd & Hpu & _ & Hsu).
  exists dated, undated.
  split; [exact Hwr |]. split; [| split; [| split; [exact Hsu |]]].
  - apply Forall_forall. intros f Hf.
    eapply Permutation_in in Hf; [|exact Hpd].
    now apply filter_In in Hf.
  - apply Forall_forall. intros f Hf.
    eapply Permutation_in in Hf; [|exact Hpu].
    apply filter_In in Hf as [_ Hf]. now apply negb_true_iff.
  - eapply Permutation_in; [symmetry; exact Hpu |].
    apply filter_In. split.
    + apply html_names_in. split; [exact Hin |].
      eapply ends_with_date_html, He.
    + unfold is_dated, date_of. now rewrite Hx.
Qed.

Lemma invalid_date_is_undated_witness :
  ends_with_date "draft_02-30-24.html" "02" "30" "24"
  /\ valid_calendar_date (2000 + decimal "24") (decimal "02") (decimal "30")
     = false
  /\ extract_date_from_filename "draft_02-30-24.html" = Return None
  /\ forall w entries,
       docs w = Some entries -> In "draft_02-30-24.html"%string (map fst entries) ->
       exists dated undated,
         writes_manifest w (dated ++ undated)
         /\ Forall (fun f => is_dated f = true) dated
         /\ Forall (fun f => is_dated f = false) undated
         /\ StronglySorted (fun f g => String.leb f g = true) undated
         /\ In "draft_02-30-24.html"%string undated.
Proof.
  assert (He : ends_with_date "draft_02-30-24.html" "02" "30" "24")
    by (split; [reflexivity | exists "draft"; reflexivity]).
  split; [exact He |]. split; [reflexivity |].
  apply (invalid_date_is_undated "draft_02-30-24.html" "02" "30" "24" He).
  reflexivity.
Defined.

(** A name that lacks the suffix and does not end with a newline has no
    date; when it is an [.html] entry of the directory, [main] lists it
    among the undated names. *)
Lemma no_suffix_is_undated (filename : string) :
  (forall m d y, ~ ends_with_date filename m d y) ->
  (last_char filename <> Some newline ->
   extract_date_from_filename filename = Return None)
  /\ forall w entries,
       docs w = Some entries -> In filename (html_names entries) ->
       exists dated undated,
         writes_manifest w (dated ++ undated)
         /\ Forall (fun f => is_dated f = true) dated
         /\ In filename undated.
Proof.
  intros Hno. split.
  - intros Hl. rewrite extract_date_of.
    destruct (date_of filename) as [date|] eqn:E; [exfalso | reflexivity].
    assert (Hx := extract_date_of filename). rewrite E in Hx.
    apply extract_some_inv in Hx as (pre & m & d & y & tail & -> & Hf & Ht & _).
    destruct (ReFacts.at_dollar_inv tail Ht) as [-> | ->].
    + apply (Hno m d y). split; [exact Hf |]. exists pre.
      now rewrite append_nil_r.
    + apply Hl. unfold dated_suffix. rewrite <- !append_assoc.
      now rewrite last_char_append.
  - intros w entries Hw Hin.
    destruct (main_partition w entries Hw)
      as (dated & undated & Hwr & Hpd & Hpu & _ & _).
    exists dated, undated. split; [exact Hwr |]. split.
    + apply Forall_forall. intros f Hf.
      eapply Permutation_in in Hf; [|exact Hpd].
      now apply filter_In in Hf.
    + eapply Permutation_in; [symmetry; exact Hpu |].
      apply filter_In. split; [exact Hin |].
      apply negb_true_iff. unfold is_dated.
      destruct (date_of filename) as [date|] eqn:E; [exfalso | reflexivity].
      assert (Hx := extract_date_of filename). rewrite E in Hx.
      apply html_names_in in Hin as [_ Hh].
      destruct (extract_some_html _ _ Hh Hx) as (m & d & y & He & _).
      exact (Hno m d y He).
Qed.

Lemma newline_name_no_suffix (m d y : string) :
  ~ ends_with_date newline_name m d y.
Proof.
  intros H. apply ends_with_date_html in H. discriminate H.
Qed.

(** C4: a name that does not end with the date suffix should have no
    date.  The name below ends with a newline, not with [.html], and the
    function gives it the date of 15 January 2024: [$] also matches just
    before a newline that ends the string. *)
Theorem extract_trailing_newline :
  endswith newline_name ".html" = false
  /\ last_char newline_name = Some newline
  /\ extract_date_from_filename newline_name
     = Return (Some (mk_datetime 2024 1 15)).
Proof. split; [reflexivity | split; reflexivity]. Qed.

Lemma summary_not_error (manifest : list string) (dated undated : nat) :
  ~ In missing_directory (summary manifest dated undated).
Proof.
  unfold summary, missing_directory. intros Hin.
  apply in_app_or in Hin as [Hin | Hin].
  - cbn [In append] in Hin.
    destruct Hin as [H | [H | [H | [H | []]]]]; discriminate H.
  - destruct manifest as [|newest rest]; [contradiction |].
    destruct (1 <? List.length (newest :: rest))%nat; cbn [In append] in Hin.
    + destruct Hin as [H | [H | []]]; discriminate H.
    + destruct Hin as [H | []]; discriminate H.
Qed.

(** C5: when the directory does not exist, [main] writes nothing (there
    still is no directory, hence no manifest file), prints that the
    directory was not found, and returns normally.  It is the one
    condition the program reports: when the directory exists, [main]
    returns normally, the manifest file exists afterwards and the message
    is not printed. *)
Theorem main_missing_directory (w : world) :
  docs w = None ->
  main w = (Return tt,
            mk_world None (stdout w ++ [missing_directory]) (fresh_slot w))
  /\ manifest_file (snd (main w)) = None
  /\ forall w' entries,
       docs w' = Some entries ->
       fst (main w') = Return tt
       /\ manifest_file (snd (main w')) <> None
       /\ exists lines,
            stdout (snd (main w')) = stdout w' ++ lines
            /\ ~ In missing_directory lines.
Proof.
  intros H. rewrite (main_missing w H). cbn [snd].
  split; [reflexivity |]. split; [reflexivity |].
  intros w' entries Hw'.
  destruct (main_writes w' entries Hw') as [Hr Hm].
  split; [exact Hr |]. split; [rewrite Hm; discriminate |].
  rewrite (main_run w' entries Hw'). cbn [snd stdout].
  eexists. split; [reflexivity | apply summary_not_error].
Qed.

Lemma main_missing_directory_witness :
  docs empty_world = None
  /\ main empty_world
     = (Return tt, mk_world None [missing_directory] 0)
  /\ manifest_file (snd (main empty_world)) = None
  /\ forall w' entries,
       docs w' = Some entries ->
       fst (main w') = Return tt
       /\ manifest_file (snd (main w')) <> None
       /\ exists lines,
            stdout (snd (main w')) = stdout w' ++ lines
            /\ ~ In missing_directory lines.
Proof.
  split; [reflexivity |].
  apply (main_missing_directory empty_world). reflexivity.
Defined.

(** C6: the names in the manifest are the names of the [.html] entries of
    the directory, each of them once; the manifest is built from the
    entries alone, so whatever the files hold, a previous manifest
    included, the same entries give the same manifest. *)
Theorem manifest_is_directory_listing (w : world) (entries : directory) :
  docs w = Some entries ->
  NoDup (map fst entries) ->
  exists manifest,
    writes_manifest w manifest
    /\ (forall f, In f manifest
                  <-> In f (map fst entries) /\ endswith f ".html" = true)
    /\ (forall f, In f manifest -> count_occ string_dec manifest f = 1%nat)
    /\ (forall w' entries',
          docs w' = Some entries' -> map fst entries' = map fst entries ->
          writes_manifest w' manifest).
Proof.
  intros Hw Hn. exists (sorted_filenames_of (html_names entries)).
  assert (Hp := manifest_perm (html_names entries)).
  split; [exact (main_writes w entries Hw) |]. split; [| split].
  - intros f. rewrite <- html_names_in. split.
    + apply Permutation_in. exact Hp.
    + apply Permutation_in. symmetry. exact Hp.
  - apply NoDup_count_occ'.
    eapply Permutation_NoDup; [symmetry; exact Hp |].
    apply NoDup_filter. exact Hn.
  - intros w' entries' Hw' E.
    assert (Hh : html_names entries' = html_names entries)
      by (unfold html_names; now rewrite E).
    rewrite <- Hh. exact (main_writes w' entries' Hw').
Qed.

Lemma manifest_is_directory_listing_witness :
  docs demo_world = Some demo_entries
  /\ NoDup (map fst demo_entries)
  /\ exists manifest,
       writes_manifest demo_world manifest
       /\ (forall f, In f manifest
                     <-> In f (map fst demo_entries)
                         /\ endswith f ".html" = true)
       /\ (forall f, In f manifest -> count_occ string_dec manifest f = 1%nat)
       /\ (forall w' entries',
             docs w' = Some entries' ->
             map fst entries' = map fst demo_entries ->
             writes_manifest w' manifest).
Proof.
  assert (Hn : NoDup (map fst demo_entries)).
  { cbn. repeat constructor; cbn; intuition discriminate. }
  split; [reflexivity |]. split; [exact Hn |].
  apply (manifest_is_directory_listing demo_world demo_entries);
    [reflexivity | exact Hn].
Defined.

Lemma main_docs_after (w : world) (entries : directory) :
  docs w = Some entries ->
  exists entries',
    docs (snd (main w)) = Some entries'
    /\ html_names entries' = html_names entries.
Proof.
  intros H. rewrite (main_run w entries H). cbn [snd docs].
  eexists. split; [reflexivity |].
  now apply html_names_write_entry.
Qed.

(** C7: a second run of [main] right after the first writes the same
    bytes to the manifest file: the file the first run wrote is not an
    [.html] entry, so the second run enumerates the same names. *)
Theorem main_twice (w : world) (entries : directory) :
  docs w = Some entries ->
  exists text,
    fst (main w) = Return tt
    /\ manifest_file (snd (main w)) = Some text
    /\ fst (main (snd (main w))) = Return tt
    /\ manifest_file (snd (main (snd (main w)))) = Some text.
Proof.
  intros H.
  destruct (main_writes w entries H) as [Hr Hm].
  destruct (main_docs_after w entries H) as (entries' & H' & Hn).
  destruct (main_writes (snd (main w)) entries' H') as [Hr' Hm'].
  rewrite Hn in Hm'. eauto.
Qed.

Lemma main_twice_witness :
  docs demo_world = Some demo_entries
  /\ exists text,
       fst (main demo_world) = Return tt
       /\ manifest_file (snd (main demo_world)) = Some text
       /\ fst (main (snd (main demo_world))) = Return tt
       /\ manifest_file (snd (main (snd (main demo_world)))) = Some text.
Proof.
  split; [reflexivity |].
  apply (main_twice demo_world demo_entries). reflexivity.
Defined.

Lemma no_html_names (entries : directory) :
  (forall e, In e entries -> endswith (fst e) ".html" = false) ->
  html_names entries = [].
Proof.
  intros H. unfold html_names. apply filter_none.
  intros f (e & <- & He)%in_map_iff. now apply H.
Qed.

(** C8: on a directory that exists and holds no [.html] entry, [main]
    raises nothing and leaves a manifest file that holds [[]]. *)
Theorem main_no_html (w : world) (entries : directory) :
  docs w = Some entries ->
  (forall e, In e entries -> endswith (fst e) ".html" = false) ->
  fst (main w) = Return tt
  /\ manifest_file (snd (main w)) = Some "[]"%string.
Proof.
  intros Hw He. destruct (main_writes w entries Hw) as [Hr Hm].
  rewrite (no_html_names entries He) in Hm. auto.
Qed.

Lemma main_no_html_witness :
  docs (mk_world (Some plain_entries) [] 1) = Some plain_entries
  /\ (forall e, In e plain_entries -> endswith (fst e) ".html" = false)
  /\ fst (main (mk_world (Some plain_entries) [] 1)) = Return tt
  /\ manifest_file (snd (main (mk_world (Some plain_entries) [] 1)))
     = Some "[]"%string.
Proof.
  assert (He : forall e, In e plain_entries -> endswith (fst e) ".html" = false).
  { intros e [<- | [<- | []]]; reflexivity. }
  split; [reflexivity |]. split; [exact He |].
  apply (main_no_html (mk_world (Some plain_entries) [] 1) plain_entries);
    [reflexivity | exact He].
Defined.

Lemma example_files_no_tie : NoDup (map fst (dated_pairs example_files)).
Proof.
  change (NoDup [mk_datetime 2024 1 15; mk_datetime 2023 12 31]).
  repeat constructor; cbn [In]; intuition discriminate.
Qed.

(** C9: on a directory whose [.html] entries are [report_01-15-24.html],
    [notes_12-31-23.html], [index.html] and [draft_02-30-24.html], in
    whatever order they are enumerated, [main] writes the manifest
    [report_01-15-24.html], [notes_12-31-23.html], [draft_02-30-24.html],
    [index.html]. *)
Theorem main_example (w : world) (entries : directory) :
  docs w = Some entries ->
  Permutation (html_names entries) example_files ->
  writes_manifest w example_manifest.
Proof.
  intros Hw Hp.
  assert (E : sorted_filenames_of (html_names entries) = example_manifest).
  { rewrite <- (manifest_order_independent example_files (html_names entries)).
    - reflexivity.
    - symmetry. exact Hp.
    - exact example_files_no_tie. }
  rewrite <- E. exact (main_writes w entries Hw).
Qed.

Lemma main_example_witness :
  docs demo_world = Some demo_entries
  /\ Permutation (html_names demo_entries) example_files
  /\ writes_manifest demo_world example_manifest.
Proof.
  assert (Hp : Permutation (html_names demo_entries) example_files).
  { change (Permutation
              [ "index.html"; "draft_02-30-24.html"; "notes_12-31-23.html";
                "report_01-15-24.html" ]%string
              [ "report_01-15-24.html"; "notes_12-31-23.html"; "index.html";
                "draft_02-30-24.html" ]%string).
    apply Permutation_sym.
    apply (Permutation_cons_app [ "index.html"; "draft_02-30-24.html";
                                  "notes_12-31-23.html" ]%string []).
    apply (Permutation_cons_app [ "index.html"; "draft_02-30-24.html" ]%string
             []).
    apply perm_skip. apply Permutation_refl. }
  split; [reflexivity |]. split; [exact Hp |].
  apply (main_example demo_world demo_entries); [reflexivity | exact Hp].
Defined.

(** C10: the names that carry one and the same date stand in the manifest
    in the order in which the directory enumerates them. *)
Theorem main_stable_ties (w : world) (entries : directory) :
  docs w = Some entries ->
  exists manifest,
    writes_manifest w manifest
    /\ forall d, filter (has_date d) manifest
                 = filter (has_date d) (html_names entries).
Proof.
  intros Hw. exists (sorted_filenames_of (html_names entries)).
  split; [exact (main_writes w entries Hw) |].
  intros d. rewrite sorted_filenames_parts, filter_app, dated_part_stable.
  rewrite (filter_none (has_date d) (sorted _)); [apply app_nil_r |].
  intros f Hf. eapply Permutation_in in Hf; [|apply sorted_perm].
  apply filter_In in Hf as [_ Hf]. apply negb_true_iff in Hf.
  unfold has_date. unfold is_dated in Hf. now destruct (date_of f).
Qed.

Lemma main_stable_ties_witness :
  docs (mk_world (Some tied_entries) [] 0) = Some tied_entries
  /\ exists manifest,
       writes_manifest (mk_world (Some tied_entries) [] 0) manifest
       /\ forall d, filter (has_date d) manifest
                    = filter (has_date d) (html_names tied_entries).
Proof.
  split; [reflexivity |].
  apply (main_stable_ties (mk_world (Some tied_entries) [] 0) tied_entries).
  reflexivity.
Defined.

Example main_tied :
  writes_manifest (mk_world (Some tied_entries) [] 0)
    [ "b_1-2-24.html"; "a_01-02-24.html"; "old_1-1-24.html" ]%string.
Proof. split; vm_compute; reflexivity. Qed.

(** * Further properties of the code *)

(** ** [extract_date_from_filename] *)

Lemma days_in_month_le_31 (year month : Z) :
  1 <= month <= 12 -> days_in_month year month <= 31.
Proof.
  intros H. unfold days_in_month.
  destruct ((month =? 2) && is_leap year); [lia |].
  assert (Hm : month = 1 \/ month = 2 \/ month = 3 \/ month = 4
               \/ month = 5 \/ month = 6 \/ month = 7 \/ month = 8
               \/ month = 9 \/ month = 10 \/ month = 11 \/ month = 12)
    by lia.
  repeat (destruct Hm as [-> | Hm]; [lia |]). subst. lia.
Qed.

Lemma date_of_fields_some (m d y : string) (date : datetime) :
  date_fields m d y = true -> date_of_fields m d y = Some date ->
  date = mk_datetime (2000 + decimal y) (decimal m) (decimal d)
  /\ 0 <= decimal y <= 99
  /\ valid_calendar_date (2000 + decimal y) (decimal m) (decimal d) = true.
Proof.
  intros (_ & _ & Hy)%date_fields_inv. unfold date_of_fields.
  destruct (valid_calendar_date _ _ _) eqn:Hv; [|discriminate].
  intros [= <-]. split; [reflexivity |].
  split; [now apply decimal_two_digits | reflexivity].
Qed.

(** X1: whatever string it is given, the function returns, a date or
    [None]: [int] is only applied to text that digit groups captured,
    and the [ValueError] of [datetime] is caught. *)
Theorem extract_never_raises (filename : string) :
  exists date, extract_date_from_filename filename = Return date.
Proof. apply extract_returns. Qed.

(** X2: a date the function returns lies in the years 2000 to 2099 and
    is a date the [datetime] constructor accepts: the month is between 1
    and 12 and the day between 1 and the length of that month, 31 at
    most. *)
Theorem extract_date_range (filename : string) (date : datetime) :
  extract_date_from_filename filename = Return (Some date) ->
  2000 <= dt_year date <= 2099
  /\ 1 <= dt_month date <= 12
  /\ 1 <= dt_day date <= days_in_month (dt_year date) (dt_month date)
  /\ dt_day date <= 31
  /\ new_datetime (dt_year date) (dt_month date) (dt_day date) = Return date.
Proof.
  intros H.
  apply extract_some_inv in H as (pre & m & d & y & tail & _ & Hf & _ & E).
  destruct (date_of_fields_some m d y date Hf E) as (-> & Hy & Hv).
  cbn [dt_year dt_month dt_day].
  assert (Hv' := Hv). apply valid_calendar_date_iff in Hv' as [Hm Hd].
  pose proof (days_in_month_le_31 (2000 + decimal y) (decimal m) Hm).
  repeat split; try lia.
  rewrite new_datetime_spec by (unfold MINYEAR, MAXYEAR; lia).
  now rewrite Hv.
Qed.

Lemma extract_date_range_witness :
  extract_date_from_filename "x_2-29-00.html"
  = Return (Some (mk_datetime 2000 2 29))
  /\ 2000 <= 2000 <= 2099
  /\ 1 <= 2 <= 12
  /\ 1 <= 29 <= days_in_month 2000 2
  /\ 29 <= 31
  /\ new_datetime 2000 2 29 = Return (mk_datetime 2000 2 29).
Proof.
  split; [reflexivity |].
  apply (extract_date_range "x_2-29-00.html" (mk_datetime 2000 2 29)).
  reflexivity.
Defined.



(** X4: the result depends on the numbers in the suffix alone: two names
    whose suffixes denote the same month, day and year give the same
    result, whatever stands before the suffix and whether or not the
    month and the day are written with a leading zero. *)
Theorem extract_depends_on_fields (pre pre' m d y m' d' y' : string) :
  date_fields m d y = true -> date_fields m' d' y' = true ->
  decimal m = decimal m' -> decimal d = decimal d' ->
  decimal y = decimal y' ->
  extract_date_from_filename (pre ++ dated_suffix m d y)
  = extract_date_from_filename (pre' ++ dated_suffix m' d' y').
Proof.
  intros Hf Hf' Em Ed Ey.
  rewrite (ends_with_date_extract (pre ++ dated_suffix m d y) m d y)
    by (split; [exact Hf | now exists pre]).
  rewrite (ends_with_date_extract (pre' ++ dated_suffix m' d' y') m' d' y')
    by (split; [exact Hf' | now exists pre']).
  unfold date_of_fields. now rewrite Em, Ed, Ey.
Qed.

Lemma extract_depends_on_fields_witness :
  date_fields "1" "5" "24" = true /\ date_fields "01" "05" "24" = true
  /\ decimal "1" = decimal "01" /\ decimal "5" = decimal "05"
  /\ decimal "24" = decimal "24"
  /\ extract_date_from_filename ("a" ++ dated_suffix "1" "5" "24")
     = extract_date_from_filename ("b_9-9-99_c" ++ dated_suffix "01" "05" "24").
Proof.
  repeat (split; [reflexivity |]).
  apply (extract_depends_on_fields "a" "b_9-9-99_c" "1" "5" "24" "01" "05" "24");
    reflexivity.
Defined.

(** ** [main]: how it ends and what it prints *)


Lemma filter_length_split {A : Type} (P : A -> bool) (l : list A) :
  (List.length (filter P l)
   + List.length (filter (fun x => negb (P x)) l))%nat
  = List.length l.
Proof.
  induction l as [|x l IH]; simpl; [reflexivity |].
  destruct (P x); simpl; lia.
Qed.

Lemma manifest_length (names : list string) :
  List.length (sorted_filenames_of names) = List.length names.
Proof. apply Permutation_length, manifest_perm. Qed.

Lemma dated_pairs_length (names : list string) :
  List.length (dated_pairs names) = List.length (filter is_dated names).
Proof. now rewrite <- dated_pairs_names, length_map. Qed.

Lemma main_stdout (w : world) (entries : directory) :
  docs w = Some entries ->
  let names := html_names entries in
  stdout (snd (main w))
  = stdout w
    ++ summary (sorted_filenames_of names)
         (List.length (filter is_dated names))
         (List.length (filter (fun f => negb (is_dated f)) names)).
Proof.
  intros H names. rewrite (main_run w entries H). cbn [snd stdout].
  now rewrite dated_pairs_length.
Qed.

(** X6: after the line that names the file, [main] prints the number of
    [.html] entries, the number of them that carry a date and the number
    that carry none; the first number is the sum of the other two. *)
Theorem main_prints_counts (w : world) (entries : directory) :
  docs w = Some entries ->
  exists rest,
    stdout (snd (main w))
    = stdout w
      ++ [ "✓ Generated docs/files.json";
           "  Total files: "
             ++ str_of_nat (List.length (html_names entries));
           "  Dated files: "
             ++ str_of_nat
                  (List.length (filter is_dated (html_names entries)));
           "  Undated files: "
             ++ str_of_nat
                  (List.length
                     (filter (fun f => negb (is_dated f))
                        (html_names entries))) ]%string
      ++ rest
    /\ List.length (html_names entries)
       = (List.length (filter is_dated (html_names entries))
          + List.length
              (filter (fun f => negb (is_dated f)) (html_names entries)))%nat.
Proof.
  intros H. rewrite (main_stdout w entries H). unfold summary.
  rewrite manifest_length.
  eexists. split; [reflexivity |].
  symmetry. apply filter_length_split.
Qed.

Lemma main_prints_counts_witness :
  docs mixed_world = Some mixed_entries
  /\ exists rest,
       stdout (snd (main mixed_world))
       = stdout mixed_world
         ++ [ "✓ Generated docs/files.json";
              "  Total files: "
                ++ str_of_nat (List.length (html_names mixed_entries));
              "  Dated files: "
                ++ str_of_nat
                     (List.length
                        (filter is_dated (html_names mixed_entries)));
              "  Undated files: "
                ++ str_of_nat
                     (List.length
                        (filter (fun f => negb (is_dated f))
                           (html_names mixed_entries))) ]%string
         ++ rest
       /\ List.length (html_names mixed_entries)
          = (List.length (filter is_dated (html_names mixed_entries))
             + List.length
                 (filter (fun f => negb (is_dated f))
                    (html_names mixed_entries)))%nat.
Proof.
  split; [reflexivity |].
  apply (main_prints_counts mixed_world mixed_entries). reflexivity.
Defined.

(** X7: [main] prints four lines when the directory holds no [.html]
    entry, five when it holds one (the newest file, and no oldest file),
    and six when it holds more. *)
Theorem main_line_count (w : world) (entries : directory) :
  docs w = Some entries ->
  List.length (stdout (snd (main w)))
  = (List.length (stdout w)
     + match List.length (html_names entries) with
       | O => 4
       | S O => 5
       | _ => 6
       end)%nat.
Proof.
  intros H. rewrite (main_stdout w entries H), length_app. f_equal.
  rewrite <- (manifest_length (html_names entries)).
  unfold summary. rewrite length_app.
  destruct (sorted_filenames_of (html_names entries)) as [|a [|b l]];
    reflexivity.
Qed.

Lemma main_line_count_witness :
  docs mixed_world = Some mixed_entries
  /\ List.length (stdout (snd (main mixed_world)))
     = (List.length (stdout mixed_world)
        + match List.length (html_names mixed_entries) with
          | O => 4
          | S O => 5
          | _ => 6
          end)%nat.
Proof.
  split; [reflexivity |].
  apply (main_line_count mixed_world mixed_entries). reflexivity.
Defined.

Lemma string_leb_refl (s : string) : String.leb s s = true.
Proof.
  unfold String.leb.
  assert (E : String.compare s s = Eq).
  { induction s as [|c s IH]; simpl; [reflexivity |].
    unfold Ascii.compare. now rewrite N.compare_refl. }
  now rewrite E.
Qed.

Lemma last_app_nonempty {A : Type} (l l' : list A) (d : A) :
  l' <> [] -> last (l ++ l') d = last l' d.
Proof.
  intros Hl'. induction l as [|x l IH]; [reflexivity |].
  cbn [app]. destruct (l ++ l') eqn:E.
  - apply app_eq_nil in E as [_ E]. contradiction.
  - rewrite <- E in *. cbn [last]. rewrite E. rewrite <- E. exact IH.
Qed.

Lemma last_in {A : Type} (l : list A) (d : A) : l <> [] -> In (last l d) l.
Proof.
  induction l as [|x [|y l] IH]; intros H; [contradiction | now left |].
  right. apply IH. discriminate.
Qed.

(** Every element of a sorted list is the last one or stands in the
    order before the last one. *)
Lemma StronglySorted_last {A : Type} (R : A -> A -> Prop) (l : list A) (d : A) :
  StronglySorted R l ->
  forall x, In x l -> x = last l d \/ R x (last l d).
Proof.
  induction 1 as [|a l Hs IH Ha]; intros x Hx; [contradiction |].
  destruct l as [|b l].
  - destruct Hx as [<- | []]. now left.
  - change (last (a :: b :: l) d) with (last (b :: l) d).
    destruct Hx as [<- | Hx].
    + right. rewrite Forall_forall in Ha. apply Ha, last_in. discriminate.
    + now apply IH.
Qed.

Lemma not_older_refl (f : string) : is_dated f = true -> not_older f f.
Proof.
  unfold is_dated, not_older. destruct (date_of f); [|discriminate].
  intros _. apply datetime_lt_irrefl.
Qed.

Lemma dated_part_in (names : list string) (f : string) :
  In f (map snd (sorted_pairs names)) <-> In f names /\ is_dated f = true.
Proof.
  rewrite <- filter_In. split; apply Permutation_in;
    [| symmetry]; apply dated_part_perm.
Qed.

Lemma undated_part_in (names : list string) (f : string) :
  In f (sorted (undated_names names)) <-> In f names /\ is_dated f = false.
Proof.
  rewrite <- negb_true_iff.
  change (In f names /\ negb (is_dated f) = true)
    with (In f names /\ (fun g => negb (is_dated g)) f = true).
  rewrite <- filter_In. split; apply Permutation_in;
    [| symmetry]; apply sorted_perm.
Qed.

(** X8: when some [.html] entry carries a date, the name printed as the
    newest file carries a date, and no dated entry has a later one. *)
Theorem newest_line_is_latest (w : world) (entries : directory) (f : string) :
  docs w = Some entries ->
  In f (html_names entries) -> is_dated f = true ->
  exists newest lines,
    stdout (snd (main w)) = stdout w ++ lines
    /\ nth_error lines 4
       = Some (String newline "Newest file: " ++ newest)%string
    /\ In newest (html_names entries)
    /\ forall g, In g (html_names entries) -> is_dated g = true ->
                 not_older newest g.
Proof.
  intros H Hf Hd. set (names := html_names entries).
  assert (Hin : In f (map snd (sorted_pairs names)))
    by (apply dated_part_in; auto).
  assert (Hs := dated_part_sorted names).
  assert (Hall : forall g, In g (map snd (sorted_pairs names))
                           <-> In g names /\ is_dated g = true)
    by (intros g; apply dated_part_in).
  rewrite (main_stdout w entries H). fold names.
  rewrite sorted_filenames_parts.
  destruct (map snd (sorted_pairs names)) as [|newest rest];
    [contradiction |].
  exists newest. eexists. split; [reflexivity |].
  split; [reflexivity |].
  split; [apply Hall; now left |].
  intros g Hg Hgd.
  apply StronglySorted_inv in Hs as [_ Hs]. rewrite Forall_forall in Hs.
  destruct (proj2 (Hall g) (conj Hg Hgd)) as [<- | Hr].
  - apply not_older_refl. exact Hgd.
  - now apply Hs.
Qed.

Lemma newest_line_is_latest_witness :
  docs mixed_world = Some mixed_entries
  /\ In "a_1-4-24.html"%string (html_names mixed_entries)
  /\ is_dated "a_1-4-24.html" = true
  /\ exists newest lines,
       stdout (snd (main mixed_world)) = stdout mixed_world ++ lines
       /\ nth_error lines 4
          = Some (String newline "Newest file: " ++ newest)%string
       /\ In newest (html_names mixed_entries)
       /\ forall g, In g (html_names mixed_entries) -> is_dated g = true ->
                    not_older newest g.
Proof.
  assert (Hin : In "a_1-4-24.html"%string (html_names mixed_entries))
    by (cbn; auto).
  split; [reflexivity |]. split; [exact Hin |]. split; [reflexivity |].
  apply (newest_line_is_latest mixed_world mixed_entries "a_1-4-24.html");
    [reflexivity | exact Hin | reflexivity].
Defined.

(** X9: with two [.html] entries or more, the name printed as the oldest
    file is the last name of the manifest.  When some entry carries no
    date it is the greatest of the undated names and carries no date
    itself, whatever the dated entries are; it is the entry with the
    earliest date only when every entry carries a date. *)
Theorem oldest_line_is_last_name (w : world) (entries : directory) :
  docs w = Some entries ->
  (2 <= List.length (html_names entries))%nat ->
  exists oldest lines,
    stdout (snd (main w)) = stdout w ++ lines
    /\ nth_error lines 5 = Some ("Oldest file: " ++ oldest)%string
    /\ In oldest (html_names entries)
    /\ (forall g, In g (html_names entries) -> is_dated g = false ->
                  is_dated oldest = false /\ String.leb g oldest = true)
    /\ ((forall g, In g (html_names entries) -> is_dated g = true) ->
        forall g, In g (html_names entries) -> not_older g oldest).
Proof.
  intros H Hlen. set (names := html_names entries) in *.
  rewrite (main_stdout w entries H). fold names.
  set (manifest := sorted_filenames_of names).
  assert (Hml : List.length manifest = List.length names)
    by apply manifest_length.
  exists (last manifest ""%string). eexists. split; [reflexivity |].
  assert (Hne : manifest <> []) by (destruct manifest; simpl in Hml; [lia | discriminate]).
  split.
  { unfold summary. destruct manifest as [|a rest] eqn:E; [contradiction |].
    assert (Hlt : (1 <? List.length (a :: rest))%nat = true)
      by (apply Nat.ltb_lt; lia).
    rewrite Hlt. reflexivity. }
  split.
  { eapply Permutation_in; [apply manifest_perm |]. now apply last_in. }
  unfold manifest. rewrite sorted_filenames_parts.
  split.
  - intros g Hg Hgu.
    assert (Hgin : In g (sorted (undated_names names)))
      by (apply undated_part_in; auto).
    assert (Hu : sorted (undated_names names) <> [])
      by (intros E; rewrite E in Hgin; contradiction).
    rewrite (last_app_nonempty _ _ _ Hu).
    split.
    + eapply undated_part_in, last_in, Hu.
    + destruct (StronglySorted_last _ _ ""%string
                  (sorted_ascending (undated_names names)) g Hgin)
        as [<- | Hle]; [apply string_leb_refl | exact Hle].
  - intros Hall g Hg.
    assert (Hu : sorted (undated_names names) = []).
    { destruct (sorted (undated_names names)) as [|u us] eqn:E;
        [reflexivity |].
      assert (Hin : In u (sorted (undated_names names)))
        by (rewrite E; now left).
      apply undated_part_in in Hin as [Hin Hud].
      rewrite (Hall u Hin) in Hud. discriminate. }
    rewrite Hu, app_nil_r.
    assert (Hgin : In g (map snd (sorted_pairs names)))
      by (apply dated_part_in; auto).
    destruct (StronglySorted_last _ _ ""%string (dated_part_sorted names)
                g Hgin) as [E | Hle]; [| exact Hle].
    rewrite <- E. apply not_older_refl. now apply Hall.
Qed.

Lemma oldest_line_is_last_name_witness :
  docs mixed_world = Some mixed_entries
  /\ (2 <= List.length (html_names mixed_entries))%nat
  /\ exists oldest lines,
       stdout (snd (main mixed_world)) = stdout mixed_world ++ lines
       /\ nth_error lines 5 = Some ("Oldest file: " ++ oldest)%string
       /\ In oldest (html_names mixed_entries)
       /\ (forall g, In g (html_names mixed_entries) -> is_dated g = false ->
                     is_dated oldest = false /\ String.leb g oldest = true)
       /\ ((forall g, In g (html_names mixed_entries) -> is_dated g = true) ->
           forall g, In g (html_names mixed_entries) -> not_older g oldest).
Proof.
  assert (Hlen : (2 <= List.length (html_names mixed_entries))%nat)
    by (cbn; lia).
  split; [reflexivity |]. split; [exact Hlen |].
  apply (oldest_line_is_last_name mixed_world mixed_entries);
    [reflexivity | exact Hlen].
Defined.

Example main_mixed_stdout :
  stdout (snd (main mixed_world))
  = [ "✓ Generated docs/files.json"; "  Total files: 4";
      "  Dated files: 2"; "  Undated files: 2";
      String newline "Newest file: b_c_01-05-24.html";
      "Oldest file: zeta.html" ]%string.
Proof. vm_compute. reflexivity. Qed.

(** ** [main]: what it writes *)

Lemma other_entries_replace (content : string) (d : directory) :
  other_entries (replace_entry "files.json" content d) = other_entries d.
Proof.
  unfold other_entries. induction d as [|[n c] d IH]; [reflexivity |].
  cbn [replace_entry]. destruct (String.eqb n "files.json") eqn:E.
  - cbn [filter fst]. now rewrite E.
  - cbn [filter fst]. rewrite E. cbn [negb]. now rewrite IH.
Qed.

Lemma other_entries_write (slot : nat) (content : string) (d : directory) :
  other_entries (write_entry slot "files.json" content d) = other_entries d.
Proof.
  unfold write_entry. destruct (has_entry "files.json" d).
  - apply other_entries_replace.
  - unfold other_entries. rewrite filter_app. cbn [filter fst].
    rewrite String.eqb_refl. cbn [negb].
    now rewrite <- filter_app, firstn_skipn.
Qed.

Lemma write_entry_length (slot : nat) (name content : string) (d : directory) :
  List.length (write_entry slot name content d)
  = if has_entry name d then List.length d else S (List.length d).
Proof.
  unfold write_entry. destruct (has_entry name d).
  - rewrite <- (length_map fst), map_fst_replace_entry. apply length_map.
  - rewrite length_app. cbn [List.length].
    rewrite <- (firstn_skipn slot d) at 3. rewrite length_app. lia.
Qed.

(** X10: [main] changes the manifest file and nothing else: the other
    entries of the directory keep their names, their contents and their
    order.  An existing manifest file keeps its place among the entries;
    a missing one is added, so the directory grows by one entry. *)
Theorem main_touches_only_manifest (w : world) (entries : directory) :
  docs w = Some entries ->
  exists entries',
    docs (snd (main w)) = Some entries'
    /\ other_entries entries' = other_entries entries
    /\ (has_entry "files.json" entries = true ->
        map fst entries' = map fst entries)
    /\ (has_entry "files.json" entries = false ->
        List.length entries' = S (List.length entries)).
Proof.
  intros H. rewrite (main_run w entries H). cbn [snd docs].
  eexists. split; [reflexivity |].
  split; [apply other_entries_write |].
  split; intros E.
  - unfold write_entry. rewrite E. apply map_fst_replace_entry.
  - rewrite write_entry_length. now rewrite E.
Qed.

Lemma main_touches_only_manifest_witness :
  docs mixed_world = Some mixed_entries
  /\ exists entries',
       docs (snd (main mixed_world)) = Some entries'
       /\ other_entries entries' = other_entries mixed_entries
       /\ (has_entry "files.json" mixed_entries = true ->
           map fst entries' = map fst mixed_entries)
       /\ (has_entry "files.json" mixed_entries = false ->
           List.length entries' = S (List.length mixed_entries)).
Proof.
  split; [reflexivity |].
  apply (main_touches_only_manifest mixed_world mixed_entries). reflexivity.
Defined.

Lemma no_tie_dates (names : list string) :
  NoDup names ->
  (forall f g d, In f names -> In g names ->
                 date_of f = Some d -> date_of g = Some d -> f = g) ->
  NoDup (map fst (dated_pairs names)).
Proof.
  induction names as [|f names IH]; intros Hn Ht; [constructor |].
  inversion Hn as [|? ? Hf Hn']; subst.
  unfold dated_pairs. cbn [flat_map]. fold (dated_pairs names).
  assert (IH' : NoDup (map fst (dated_pairs names))).
  { apply IH; [exact Hn' |]. intros a b d Ha Hb. apply Ht; now right. }
  destruct (date_of f) as [d|] eqn:E; [| exact IH'].
  cbn [app map fst]. constructor; [| exact IH'].
  intros (p & Hp & Hin)%in_map_iff. destruct p as [d' g]. cbn [fst] in Hp.
  subst d'. apply dated_pairs_in in Hin as [Hg Hd].
  apply Hf. rewrite (Ht f g d); auto; [now left | now right].
Qed.

(** X11: when no two [.html] entries carry the same date, the manifest
    does not depend on the order in which the directory is enumerated:
    two directories with the same [.html] names get the same file. *)
Theorem manifest_ignores_enumeration_order
    (w w' : world) (entries entries' : directory) :
  docs w = Some entries -> docs w' = Some entries' ->
  NoDup (map fst entries) ->
  Permutation (html_names entries) (html_names entries') ->
  (forall f g d,
     In f (html_names entries) -> In g (html_names entries) ->
     date_of f = Some d -> date_of g = Some d -> f = g) ->
  manifest_file (snd (main w)) = manifest_file (snd (main w')).
Proof.
  intros H H' Hn Hp Ht.
  destruct (main_writes w entries H) as [_ ->].
  destruct (main_writes w' entries' H') as [_ ->].
  rewrite (manifest_order_independent _ _ Hp); [reflexivity |].
  apply no_tie_dates; [| exact Ht].
  apply NoDup_filter. exact Hn.
Qed.

Lemma mixed_no_tie (f g : string) (d : datetime) :
  In f (html_names mixed_entries) -> In g (html_names mixed_entries) ->
  date_of f = Some d -> date_of g = Some d -> f = g.
Proof.
  change (html_names mixed_entries)
    with [ "b_c_01-05-24.html"; "zeta.html"; "a_1-4-24.html";
           "alpha.html" ]%string.
  intros [<- | [<- | [<- | [<- | []]]]] [<- | [<- | [<- | [<- | []]]]] Ef Eg;
    try reflexivity; vm_compute in Ef, Eg; congruence.
Qed.

Lemma manifest_ignores_enumeration_order_witness :
  docs mixed_world = Some mixed_entries
  /\ docs (mk_world (Some mixed_entries_shuffled) [] 0)
     = Some mixed_entries_shuffled
  /\ NoDup (map fst mixed_entries)
  /\ Permutation (html_names mixed_entries)
       (html_names mixed_entries_shuffled)
  /\ manifest_file (snd (main mixed_world))
     = manifest_file
         (snd (main (mk_world (Some mixed_entries_shuffled) [] 0))).
Proof.
  assert (Hn : NoDup (map fst mixed_entries)).
  { cbn. repeat constructor; cbn; intuition discriminate. }
  assert (Hp : Permutation (html_names mixed_entries)
                 (html_names mixed_entries_shuffled)).
  { change (html_names mixed_entries_shuffled)
      with (rev (html_names mixed_entries)).
    apply Permutation_rev. }
  split; [reflexivity |]. split; [reflexivity |].
  split; [exact Hn |]. split; [exact Hp |].
  apply (manifest_ignores_enumeration_order mixed_world
           (mk_world (Some mixed_entries_shuffled) [] 0)
           mixed_entries mixed_entries_shuffled);
    [reflexivity | reflexivity | exact Hn | exact Hp | exact mixed_no_tie].
Defined.

(** ** Sorting what is sorted *)

Lemma insert_at_end {A : Type} (lt : A -> A -> bool) (x : A) (run : list A) :
  Forall (fun y => lt x y = false) run -> insert lt x run = run ++ [x].
Proof.
  induction 1 as [|y run Hy _ IH]; [reflexivity |].
  cbn [insert app]. now rewrite Hy, IH.
Qed.

Lemma StronglySorted_app_inv {A : Type} (R : A -> A -> Prop) (a b : list A) :
  StronglySorted R (a ++ b) ->
  forall x y, In x a -> In y b -> R x y.
Proof.
  induction a as [|z a IH]; intros Hs x y Hx Hy; [contradiction |].
  cbn [app] in Hs. apply StronglySorted_inv in Hs as [Hs Hz].
  destruct Hx as [<- | Hx].
  - rewrite Forall_forall in Hz. apply Hz, in_or_app. now right.
  - now apply IH.
Qed.

Lemma sort_into_sorted_id {A : Type} (lt : A -> A -> bool) (l : list A) :
  forall run,
    StronglySorted (not_gt lt) (run ++ l) -> sort_into lt run l = run ++ l.
Proof.
  induction l as [|x l IH]; intros run Hs; cbn [sort_into].
  - now rewrite app_nil_r.
  - rewrite insert_at_end.
    + rewrite IH; rewrite <- app_assoc; [reflexivity | exact Hs].
    + apply Forall_forall. intros y Hy.
      apply (StronglySorted_app_inv _ _ _ Hs y x Hy). now left.
Qed.

(** Sorting a list that is already in the order asked for returns the
    list. *)
Lemma list_sort_sorted_id {A K : Type} (lt : K -> K -> bool) (key : A -> K)
    (reverse : bool) (l : list A) :
  StronglySorted
    (fun a b => if reverse then lt (key a) (key b) = false
                else lt (key b) (key a) = false) l ->
  list_sort lt key reverse l = l.
Proof.
  intros Hs. unfold list_sort, stable_sort. destruct reverse.
  - rewrite sort_into_sorted_id.
    + cbn [app]. apply rev_involutive.
    + cbn [app]. unfold not_gt.
      apply (StronglySorted_rev (fun a b => lt (key a) (key b) = false)).
      exact Hs.
  - apply (sort_into_sorted_id (fun a b => lt (key a) (key b)) l []).
    exact Hs.
Qed.

Lemma dated_pairs_app (a b : list string) :
  dated_pairs (a ++ b) = dated_pairs a ++ dated_pairs b.
Proof. apply flat_map_app. Qed.

Lemma dated_pairs_undated (l : list string) :
  (forall f, In f l -> is_dated f = false) -> dated_pairs l = [].
Proof.
  induction l as [|f l IH]; intros H; [reflexivity |].
  unfold dated_pairs. cbn [flat_map]. fold (dated_pairs l).
  assert (Hf := H f (or_introl eq_refl)). unfold is_dated in Hf.
  destruct (date_of f); [discriminate |].
  apply IH. intros g Hg. apply H. now right.
Qed.

Lemma dated_pairs_map_snd (pairs : list (datetime * string)) :
  Forall (fun p => date_of (snd p) = Some (fst p)) pairs ->
  dated_pairs (map snd pairs) = pairs.
Proof.
  induction 1 as [|[d f] pairs Hp _ IH]; [reflexivity |].
  cbn [map snd fst] in *. unfold dated_pairs. cbn [flat_map].
  fold (dated_pairs (map snd pairs)). now rewrite Hp, IH.
Qed.

Lemma filter_all {A : Type} (P : A -> bool) (l : list A) :
  (forall x, In x l -> P x = true) -> filter P l = l.
Proof.
  induction l as [|x l IH]; intros H; [reflexivity |].
  cbn [filter]. rewrite (H x) by now left.
  f_equal. apply IH. intros y Hy. apply H. now right.
Qed.

Lemma sorted_filenames_fixed (names : list string) :
  sorted_filenames_of (sorted_filenames_of names)
  = sorted_filenames_of names.
Proof.
  set (dated := map snd (sorted_pairs names)).
  set (undated := sorted (undated_names names)).
  assert (Hd : forall f, In f dated -> is_dated f = true)
    by (intros f Hf; now apply dated_part_in in Hf).
  assert (Hu : forall f, In f undated -> is_dated f = false)
    by (intros f Hf; now apply undated_part_in in Hf).
  rewrite (sorted_filenames_parts names). fold dated undated.
  unfold sorted_filenames_of at 1.
  rewrite dated_pairs_app, (dated_pairs_undated undated Hu), app_nil_r.
  unfold dated at 1.
  rewrite (dated_pairs_map_snd _ (sorted_pairs_dates names)).
  rewrite (list_sort_sorted_id datetime_lt fst true)
    by apply (list_sort_reverse datetime_lt fst datetime_lt_asym
                datetime_lt_not_gt_trans).
  fold dated. f_equal.
  unfold undated_names at 1. rewrite filter_app.
  rewrite (filter_none _ dated)
    by (intros f Hf; now rewrite (Hd f Hf)).
  rewrite (filter_all _ undated)
    by (intros f Hf; now rewrite (Hu f Hf)).
  cbn [app]. unfold sorted. apply list_sort_sorted_id.
  eapply StronglySorted_impl; [| apply sorted_ascending].
  intros a b Hab. now apply string_ltb_leb.
Qed.

(** X12: the order of the manifest is a fixed point: in a directory that
    enumerates its [.html] entries in the order of a manifest [main]
    wrote, [main] writes that manifest again. *)
Theorem manifest_order_is_fixed (w w' : world) (entries entries' : directory)
    (manifest : list string) :
  docs w = Some entries -> writes_manifest w manifest ->
  docs w' = Some entries' -> html_names entries' = manifest ->
  writes_manifest w' manifest.
Proof.
  intros H Hw H' E.
  assert (Em : manifest = sorted_filenames_of (html_names entries))
    by (apply (writes_manifest_unique w); [exact Hw | now apply main_writes]).
  assert (Hw' := main_writes w' entries' H').
  rewrite E, Em, sorted_filenames_fixed in Hw'. now rewrite Em.
Qed.

Lemma manifest_order_is_fixed_witness :
  docs mixed_world = Some mixed_entries
  /\ writes_manifest mixed_world mixed_manifest
  /\ docs (mk_world (Some mixed_entries_in_order) [] 7)
     = Some mixed_entries_in_order
  /\ html_names mixed_entries_in_order = mixed_manifest
  /\ writes_manifest (mk_world (Some mixed_entries_in_order) [] 7)
       mixed_manifest.
Proof.
  assert (Hw : writes_manifest mixed_world mixed_manifest)
    by (split; vm_compute; reflexivity).
  split; [reflexivity |]. split; [exact Hw |].
  split; [reflexivity |]. split; [reflexivity |].
  apply (manifest_order_is_fixed mixed_world
           (mk_world (Some mixed_entries_in_order) [] 7)
           mixed_entries mixed_entries_in_order mixed_manifest);
    [reflexivity | exact Hw | reflexivity | reflexivity].
Defined.

(** ** The text of the manifest file *)

Lemma all_chars_append (P : ascii -> bool) (a b : string) :
  all_chars P (a ++ b) = all_chars P a && all_chars P b.
Proof.
  induction a as [|c a IH]; cbn [append all_chars]; [reflexivity |].
  now rewrite IH, andb_assoc.
Qed.

Lemma count_char_append (c : ascii) (a b : string) :
  count_char c (a ++ b) = (count_char c a + count_char c b)%nat.
Proof.
  induction a as [|x a IH]; cbn [append count_char]; [reflexivity |].
  rewrite IH. lia.
Qed.

(** Whatever the character, its replacement is made of printable
    characters of ASCII and holds no newline. *)
Lemma escape_char_plain (c : ascii) :
  all_chars plain_ascii (escape_char c) = true
  /\ count_char newline (escape_char c) = O.
Proof.
  destruct c as [[] [] [] [] [] [] [] []]; split; reflexivity.
Qed.

Lemma escape_plain (s : string) :
  all_chars plain_ascii (escape s) = true
  /\ count_char newline (escape s) = O.
Proof.
  induction s as [|c s [IH1 IH2]]; [split; reflexivity |].
  cbn [escape]. rewrite all_chars_append, count_char_append.
  destruct (escape_char_plain c) as [-> ->]. now rewrite IH1, IH2.
Qed.

Lemma encode_str_plain (s : string) :
  all_chars plain_ascii (encode_str s) = true
  /\ count_char newline (encode_str s) = O.
Proof.
  unfold encode_str. cbn [all_chars count_char].
  rewrite all_chars_append, count_char_append.
  destruct (escape_plain s) as [-> ->]. split; reflexivity.
Qed.

Lemma encode_items_plain (l : list string) :
  all_chars plain_ascii
    (encode_items (String "," (String newline (spaces 2))) l) = true
  /\ count_char newline
       (encode_items (String "," (String newline (spaces 2))) l)
     = List.length l.
Proof.
  induction l as [|s l [IH1 IH2]]; [split; reflexivity |].
  cbn [encode_items List.length].
  rewrite !all_chars_append, !count_char_append.
  destruct (encode_str_plain s) as [-> ->]. rewrite IH1, IH2.
  split; reflexivity.
Qed.

Lemma json_dumps_plain (l : list string) :
  all_chars plain_ascii (json_dumps l 2) = true
  /\ count_char newline (json_dumps l 2)
     = match l with
       | [] => O
       | _ => S (List.length l)
       end.
Proof.
  destruct l as [|s l]; [split; reflexivity |].
  unfold json_dumps. cbv zeta.
  rewrite !all_chars_append, !count_char_append.
  destruct (encode_str_plain s) as [-> ->].
  destruct (encode_items_plain l) as [-> ->].
  cbn. split; [reflexivity | lia].
Qed.

(** X13: the manifest file holds printable characters of ASCII and
    newlines and nothing else, whatever characters the names hold:
    every other character of a name is written as an escape. *)
Theorem manifest_file_is_ascii (w : world) (entries : directory) :
  docs w = Some entries ->
  exists text,
    manifest_file (snd (main w)) = Some text
    /\ all_chars plain_ascii text = true.
Proof.
  intros H. destruct (main_writes w entries H) as [_ Hm].
  eexists. split; [exact Hm | apply json_dumps_plain].
Qed.

Lemma manifest_file_is_ascii_witness :
  docs mixed_world = Some mixed_entries
  /\ exists text,
       manifest_file (snd (main mixed_world)) = Some text
       /\ all_chars plain_ascii text = true.
Proof.
  split; [reflexivity |].
  apply (manifest_file_is_ascii mixed_world mixed_entries). reflexivity.
Defined.

(** X14: the manifest file holds one name on each line between a line
    that holds the opening bracket and a line that holds the closing
    one, so one newline more than there are [.html] entries; a newline
    inside a name is escaped and breaks no line.  With no entry the file
    holds no newline at all. *)
Theorem manifest_file_lines (w : world) (entries : directory) :
  docs w = Some entries ->
  exists text,
    manifest_file (snd (main w)) = Some text
    /\ count_char newline text
       = match List.length (html_names entries) with
         | O => O
         | S n => S (S n)
         end.
Proof.
  intros H. destruct (main_writes w entries H) as [_ Hm].
  eexists. split; [exact Hm |].
  destruct (json_dumps_plain (sorted_filenames_of (html_names entries)))
    as [_ ->].
  rewrite <- (manifest_length (html_names entries)).
  now destruct (sorted_filenames_of (html_names entries)).
Qed.

Lemma manifest_file_lines_witness :
  docs mixed_world = Some mixed_entries
  /\ exists text,
       manifest_file (snd (main mixed_world)) = Some text
       /\ count_char newline text
          = match List.length (html_names mixed_entries) with
            | O => O
            | S n => S (S n)
            end.
Proof.
  split; [reflexivity |].
  apply (manifest_file_lines mixed_world mixed_entries). reflexivity.
Defined.

(** X15: the manifest file determines the [.html] names of the
    directory it was written for: two runs that leave the same file saw
    the same names, each as often. *)
Theorem manifest_file_determines_names
    (w w' : world) (entries entries' : directory) :
  docs w = Some entries -> docs w' = Some entries' ->
  manifest_file (snd (main w)) = manifest_file (snd (main w')) ->
  Permutation (html_names entries) (html_names entries').
Proof.
  intros H H' E.
  destruct (main_writes w entries H) as [_ Hm].
  destruct (main_writes w' entries' H') as [_ Hm'].
  rewrite Hm, Hm' in E. injection E as E. apply json_dumps_inj in E.
  rewrite <- (manifest_perm (html_names entries)), E.
  apply manifest_perm.
Qed.

Lemma manifest_file_determines_names_witness :
  docs mixed_world = Some mixed_entries
  /\ docs (mk_world (Some mixed_entries_shuffled) [] 0)
     = Some mixed_entries_shuffled
  /\ manifest_file (snd (main mixed_world))
     = manifest_file
         (snd (main (mk_world (Some mixed_entries_shuffled) [] 0)))
  /\ Permutation (html_names mixed_entries)
       (html_names mixed_entries_shuffled).
Proof.
  assert (E : manifest_file (snd (main mixed_world))
              = manifest_file
                  (snd (main (mk_world (Some mixed_entries_shuffled) [] 0))))
    by (vm_compute; reflexivity).
  split; [reflexivity |]. split; [reflexivity |]. split; [exact E |].
  apply (manifest_file_determines_names mixed_world
           (mk_world (Some mixed_entries_shuffled) [] 0)
           mixed_entries mixed_entries_shuffled);
    [reflexivity | reflexivity | exact E].
Defined.

(** ** Names that end with [.html] *)



(** ** Running [main] again *)

Lemma replace_entry_same (name content : string) (d : directory) :
  read_entry name d = Some content -> replace_entry name content d = d.
Proof.
  unfold read_entry. induction d as [|[n c] d IH]; [reflexivity |].
  cbn [find replace_entry fst]. destruct (String.eqb n name).
  - cbn [option_map snd]. now intros [= ->].
  - intros H. now rewrite IH.
Qed.

Lemma read_entry_has (name content : string) (d : directory) :
  read_entry name d = Some content -> has_entry name d = true.
Proof.
  unfold read_entry, has_entry. induction d as [|e d IH]; [discriminate |].
  cbn [find existsb]. destruct (String.eqb (fst e) name); auto.
Qed.

Lemma write_entry_again (slot slot' : nat) (name content : string)
    (d : directory) :
  write_entry slot' name content (write_entry slot name content d)
  = write_entry slot name content d.
Proof.
  assert (H := read_write_entry slot name content d).
  unfold write_entry at 1. rewrite (read_entry_has _ _ _ H).
  now apply replace_entry_same.
Qed.

(** X17: a second run of [main] right after the first leaves the whole
    directory as the first run left it, every entry with its content and
    in its place, and prints the lines the first run printed. *)
Theorem main_twice_same_directory (w : world) (entries : directory) :
  docs w = Some entries ->
  docs (snd (main (snd (main w)))) = docs (snd (main w))
  /\ exists lines,
       stdout (snd (main w)) = stdout w ++ lines
       /\ stdout (snd (main (snd (main w)))) = (stdout w ++ lines) ++ lines.
Proof.
  intros H.
  destruct (main_docs_after w entries H) as (entries' & H' & Hn).
  assert (E' : entries'
               = write_entry (fresh_slot w) "files.json"
                   (json_dumps (sorted_filenames_of (html_names entries)) 2)
                   entries).
  { rewrite (main_run w entries H) in H'. cbn [snd docs] in H'.
    now injection H' as <-. }
  split.
  - rewrite (main_run (snd (main w)) entries' H'). cbn [snd docs].
    rewrite H', Hn. f_equal. rewrite E'. apply write_entry_again.
  - eexists. split; [apply (main_stdout w entries H) |].
    rewrite (main_stdout (snd (main w)) entries' H'), Hn.
    now rewrite (main_stdout w entries H).
Qed.

Lemma main_twice_same_directory_witness :
  docs mixed_world = Some mixed_entries
  /\ docs (snd (main (snd (main mixed_world)))) = docs (snd (main mixed_world))
  /\ exists lines,
       stdout (snd (main mixed_world)) = stdout mixed_world ++ lines
       /\ stdout (snd (main (snd (main mixed_world))))
          = (stdout mixed_world ++ lines) ++ lines.
Proof.
  split; [reflexivity |].
  apply (main_twice_same_directory mixed_world mixed_entries). reflexivity.
Defined.
